(** * check_quality.py: path extraction and data-quality checks

    A shallow embedding of [src/check_quality.py].  The two functions of
    the script, [extract_paths_from_raw] and [check_service], are
    translated statement by statement.  The Python runtime pieces they call
    (string methods, dict access, [json.loads], [urlparse], [parse_qs]) are
    modelled in the modules [Py], [Json] and [Url]; the object store, the
    parquet decoder, the decoder of the bytes of a stored JSON object and
    the collection file are parameters of the section [Checker].

    Conventions.
    - A Python [str] is a Rocq [string] holding its UTF-8 bytes.  Every
      pattern the script searches for is ASCII, so suffix, substring and
      replacement tests agree with the tests on code points.
    - A raised exception is a value [Raise e]; [try]/[except] is a [match]
      on the result.
    - A [dict] is an association list in insertion order with distinct
      keys. *)

From Stdlib Require Import String Ascii List ZArith Bool Lia DecimalString.
Import ListNotations.
Local Open Scope string_scope.
Local Open Scope list_scope.

(** A text with double quotes, written with an apostrophe in the place of
    each double quote. *)
Fixpoint dq (s : string) : string :=
  match s with
  | EmptyString => EmptyString
  | String c s' => String (match c with "'"%char => "034"%char | _ => c end) (dq s')
  end.

(** ** Python values, exceptions and the builtins the script uses *)

Module Py.

Inductive exn_kind :=
| KeyError | TypeError | AttributeError | ValueError | IndexError
| JSONDecodeError | UnicodeDecodeError | OSError | StorageError | DecodeError.

(** An exception object: its class and [str(e)]. *)
Record exn := mk_exn { exn_class : exn_kind; exn_msg : string }.

Inductive result (A : Type) :=
| Ok (a : A)
| Raise (e : exn).
Arguments Ok {A} a.
Arguments Raise {A} e.

Definition bind {A B} (r : result A) (k : A -> result B) : result B :=
  match r with
  | Ok a => k a
  | Raise e => Raise e
  end.

(** A float literal is kept as the decimal it was written as,
    [digits * 10^exp10] with a sign; only its truth value is needed. *)
Inductive pyfloat :=
| FDec (negative : bool) (digits : Z) (exp10 : Z)
| FNaN
| FInf (negative : bool).

(** The values [json.loads] can return. *)
#[local] Unset Elimination Schemes.
Inductive pyval :=
| PNone
| PBool (b : bool)
| PInt (z : Z)
| PFloat (f : pyfloat)
| PStr (s : string)
| PList (l : list pyval)
| PDict (d : list (string * pyval)).
#[local] Set Elimination Schemes.

Definition dict := list (string * pyval).

(** *** str methods *)

(** [s.endswith(suffix)] *)
Fixpoint endswith (s suffix : string) : bool :=
  String.eqb s suffix ||
  match s with
  | EmptyString => false
  | String _ s' => endswith s' suffix
  end.

(** [s.endswith((a, b, ...))] *)
Definition endswith_any (s : string) (suffixes : list string) : bool :=
  existsb (endswith s) suffixes.

(** [needle in s] for strings *)
Fixpoint contains (needle s : string) : bool :=
  String.prefix needle s ||
  match s with
  | EmptyString => false
  | String _ s' => contains needle s'
  end.

(** [s.replace(old, new)] for a non-empty [old]: every occurrence, left to
    right, without overlap.  [skip] counts the characters of the
    occurrence just replaced that are still to be dropped. *)
Fixpoint replace_from (old new : string) (skip : nat) (s : string) : string :=
  match s with
  | EmptyString => EmptyString
  | String c s' =>
      match skip with
      | S k => replace_from old new k s'
      | O =>
          if String.prefix old s
          then new ++ replace_from old new (String.length old - 1) s'
          else String c (replace_from old new 0 s')
      end
  end.

Definition replace (s old new : string) : string := replace_from old new 0 s.

(** *** dict methods *)

Fixpoint dict_lookup (d : dict) (k : string) : option pyval :=
  match d with
  | [] => None
  | (k', v) :: d' => if String.eqb k' k then Some v else dict_lookup d' k
  end.

(** [d.get(k, default)]; the default is an already evaluated value. *)
Definition dict_get (d : dict) (k : string) (default : pyval) : pyval :=
  match dict_lookup d k with
  | Some v => v
  | None => default
  end.

(** [d[k] = v]: a present key keeps its position. *)
Fixpoint dict_set (d : dict) (k : string) (v : pyval) : dict :=
  match d with
  | [] => [(k, v)]
  | (k', v') :: d' =>
      if String.eqb k' k then (k', v) :: d' else (k', v') :: dict_set d' k v
  end.

(** *** truth values, type names, equality with a str *)

(** A decimal literal rounds to the double 0.0 exactly when its magnitude
    is at most 2^-1075 (half the smallest subnormal, ties to even). *)
Definition float_nonzero (f : pyfloat) : bool :=
  match f with
  | FDec _ m e =>
      if (m =? 0)%Z then false
      else if (0 <=? e)%Z then true
      else (10 ^ (- e) <? m * 2 ^ 1075)%Z
  | FNaN => true
  | FInf _ => true
  end.

(** [bool(v)] *)
Definition truthy (v : pyval) : bool :=
  match v with
  | PNone => false
  | PBool b => b
  | PInt z => negb (z =? 0)%Z
  | PFloat f => float_nonzero f
  | PStr s => negb (String.eqb s "")
  | PList l => match l with [] => false | _ => true end
  | PDict d => match d with [] => false | _ => true end
  end.

(** [type(v).__name__] *)
Definition type_name (v : pyval) : string :=
  match v with
  | PNone => "NoneType"
  | PBool _ => "bool"
  | PInt _ => "int"
  | PFloat _ => "float"
  | PStr _ => "str"
  | PList _ => "list"
  | PDict _ => "dict"
  end.

(** [v == s] for a str [s] *)
Definition eq_str (v : pyval) (s : string) : bool :=
  match v with
  | PStr t => String.eqb t s
  | _ => false
  end.

Definition no_attribute (v : pyval) (attr : string) : exn :=
  mk_exn AttributeError
    ("'" ++ type_name v ++ "' object has no attribute '" ++ attr ++ "'").

(** [v[k]] for a str subscript [k] *)
Definition getitem (v : pyval) (k : string) : result pyval :=
  match v with
  | PDict d =>
      match dict_lookup d k with
      | Some x => Ok x
      | None => Raise (mk_exn KeyError ("'" ++ k ++ "'"))
      end
  | PList _ =>
      Raise (mk_exn TypeError "list indices must be integers or slices, not str")
  | PStr _ =>
      Raise (mk_exn TypeError "string indices must be integers, not 'str'")
  | _ =>
      Raise (mk_exn TypeError ("'" ++ type_name v ++ "' object is not subscriptable"))
  end.

(** [k in v] for a str [k]: key of a dict, element of a list, substring
    of a str. *)
Definition contains_str (k : string) (v : pyval) : result bool :=
  match v with
  | PDict d => Ok (match dict_lookup d k with Some _ => true | None => false end)
  | PList l => Ok (existsb (fun x => eq_str x k) l)
  | PStr s => Ok (contains k s)
  | _ =>
      Raise (mk_exn TypeError
               ("argument of type '" ++ type_name v ++ "' is not iterable"))
  end.

(** The items a [for] loop or a generator draws from [v]. *)
Definition iterate (v : pyval) : result (list pyval) :=
  match v with
  | PList l => Ok l
  | PDict d => Ok (map (fun kv => PStr (fst kv)) d)
  | PStr s => Ok (map (fun c => PStr (String c EmptyString)) (list_ascii_of_string s))
  | _ =>
      Raise (mk_exn TypeError ("'" ++ type_name v ++ "' object is not iterable"))
  end.

End Py.

(** ** json.loads

    The decoder of the standard library, for a str argument: a scanner
    that turns the text into tokens and a parser that builds the value
    with an explicit stack of open containers.  [None] stands for a raised
    [JSONDecodeError].  Not modelled: the two limits of the interpreter, on
    the depth of nesting (RecursionError) and on the number of digits of an
    integer literal (ValueError beyond 4300 digits); on a text beyond them
    [json.loads] raises an exception that is not a [JSONDecodeError], where
    this model returns a value. *)

Module Json.
Import Py.

Inductive token :=
| TLBrace | TRBrace | TLBracket | TRBracket | TComma | TColon
| TString (s : string)
| TValue (v : pyval).

(** A piece of a string literal: a byte of the text or a [\uXXXX]
    escape. *)
Inductive unit16 :=
| UByte (c : ascii)
| UEsc (n : N).

Definition byte_of_N (n : N) : ascii := ascii_of_N n.

(** UTF-8 encoding of a code point. *)
Definition utf8 (n : N) : string :=
  (if n <? 128 then
     String (byte_of_N n) EmptyString
   else if n <? 2048 then
     String (byte_of_N (192 + n / 64))
       (String (byte_of_N (128 + n mod 64)) EmptyString)
   else if n <? 65536 then
     String (byte_of_N (224 + n / 4096))
       (String (byte_of_N (128 + (n / 64) mod 64))
          (String (byte_of_N (128 + n mod 64)) EmptyString))
   else
     String (byte_of_N (240 + n / 262144))
       (String (byte_of_N (128 + (n / 4096) mod 64))
          (String (byte_of_N (128 + (n / 64) mod 64))
             (String (byte_of_N (128 + n mod 64)) EmptyString))))%N.

Definition is_high_surrogate (n : N) : bool := ((55296 <=? n) && (n <=? 56319))%N.
Definition is_low_surrogate (n : N) : bool := ((56320 <=? n) && (n <=? 57343))%N.

(** The text of a string literal; a high surrogate escape directly
    followed by a low surrogate escape is one code point. *)
Fixpoint decode_units (l : list unit16) : string :=
  match l with
  | [] => EmptyString
  | UByte c :: r => String c (decode_units r)
  | UEsc hi :: r =>
      match r with
      | UEsc lo :: r' =>
          if is_high_surrogate hi && is_low_surrogate lo
          then utf8 (65536 + (hi - 55296) * 1024 + (lo - 56320))%N ++ decode_units r'
          else utf8 hi ++ decode_units r
      | _ => utf8 hi ++ decode_units r
      end
  end.

Definition is_ws (c : ascii) : bool :=
  match c with
  | " "%char | "009"%char | "010"%char | "013"%char => true
  | _ => false
  end.

Definition digit_val (c : ascii) : option Z :=
  let n := N_of_ascii c in
  if ((48 <=? n) && (n <=? 57))%N then Some (Z.of_N n - 48)%Z else None.

Definition hex_val (c : ascii) : option N :=
  let n := N_of_ascii c in
  (if (48 <=? n) && (n <=? 57) then Some (n - 48)
   else if (65 <=? n) && (n <=? 70) then Some (n - 55)
   else if (97 <=? n) && (n <=? 102) then Some (n - 87)
   else None)%N.

(** Where the scanner is inside a number literal: an optional minus
    sign; a zero, or a non-zero digit and more digits; optionally a point
    and one or more digits; optionally e or E, an optional sign and one
    or more digits. *)
Inductive num_phase := NSign | NZero | NInt | NDot | NFrac | NE | NESign | NExp.

Inductive mode :=
| LTop
| LStr (units : list unit16)
| LStrEsc (units : list unit16)
| LStrHex (units : list unit16) (acc : N) (todo : nat)
| LWord (expected : string) (v : pyval)
| LNum (ph : num_phase) (neg : bool) (mant nfrac : Z) (eneg : bool) (ex : Z).

(** The value of a number literal that may end in phase [ph]: an int when
    it has neither fraction nor exponent, a float otherwise. *)
Definition num_value (ph : num_phase) (neg : bool) (mant nfrac : Z)
    (eneg : bool) (ex : Z) : option pyval :=
  match ph with
  | NZero | NInt => Some (PInt (if neg then - mant else mant)%Z)
  | NFrac => Some (PFloat (FDec neg mant (- nfrac)))
  | NExp => Some (PFloat (FDec neg mant ((if eneg then - ex else ex) - nfrac)))
  | _ => None
  end.

Definition step_top (c : ascii) : option (mode * list token) :=
  if is_ws c then Some (LTop, [])
  else
    match c with
    | "{"%char => Some (LTop, [TLBrace])
    | "}"%char => Some (LTop, [TRBrace])
    | "["%char => Some (LTop, [TLBracket])
    | "]"%char => Some (LTop, [TRBracket])
    | ","%char => Some (LTop, [TComma])
    | ":"%char => Some (LTop, [TColon])
    | "034"%char => Some (LStr [], [])
    | "n"%char => Some (LWord "ull" PNone, [])
    | "t"%char => Some (LWord "rue" (PBool true), [])
    | "f"%char => Some (LWord "alse" (PBool false), [])
    | "N"%char => Some (LWord "aN" (PFloat FNaN), [])
    | "I"%char => Some (LWord "nfinity" (PFloat (FInf false)), [])
    | "-"%char => Some (LNum NSign true 0 0 false 0, [])
    | "0"%char => Some (LNum NZero false 0 0 false 0, [])
    | _ =>
        match digit_val c with
        | Some d => Some (LNum NInt false d 0 false 0, [])
        | None => None
        end
    end.

(** The literal is complete: emit it, then read [c] as the start of the
    next token. *)
Definition end_number (ph : num_phase) (neg : bool) (mant nfrac : Z)
    (eneg : bool) (ex : Z) (c : ascii) : option (mode * list token) :=
  match num_value ph neg mant nfrac eneg ex, step_top c with
  | Some v, Some (m, ts) => Some (m, TValue v :: ts)
  | _, _ => None
  end.

Definition is_e (c : ascii) : bool :=
  match c with "e"%char | "E"%char => true | _ => false end.

Definition step_num (ph : num_phase) (neg : bool) (mant nfrac : Z)
    (eneg : bool) (ex : Z) (c : ascii) : option (mode * list token) :=
  match ph with
  | NSign =>
      match c with
      | "0"%char => Some (LNum NZero neg 0 0 false 0, [])
      | "I"%char => Some (LWord "nfinity" (PFloat (FInf true)), [])
      | _ =>
          match digit_val c with
          | Some d => Some (LNum NInt neg d 0 false 0, [])
          | None => None
          end
      end
  | NZero =>
      match c with
      | "."%char => Some (LNum NDot neg mant nfrac eneg ex, [])
      | _ => if is_e c then Some (LNum NE neg mant nfrac eneg ex, [])
             else end_number ph neg mant nfrac eneg ex c
      end
  | NInt =>
      match digit_val c with
      | Some d => Some (LNum NInt neg (mant * 10 + d) nfrac eneg ex, [])
      | None =>
          match c with
          | "."%char => Some (LNum NDot neg mant nfrac eneg ex, [])
          | _ => if is_e c then Some (LNum NE neg mant nfrac eneg ex, [])
                 else end_number ph neg mant nfrac eneg ex c
          end
      end
  | NDot =>
      match digit_val c with
      | Some d => Some (LNum NFrac neg (mant * 10 + d) (nfrac + 1) eneg ex, [])
      | None => None
      end
  | NFrac =>
      match digit_val c with
      | Some d => Some (LNum NFrac neg (mant * 10 + d) (nfrac + 1) eneg ex, [])
      | None =>
          if is_e c then Some (LNum NE neg mant nfrac eneg ex, [])
          else end_number ph neg mant nfrac eneg ex c
      end
  | NE =>
      match c with
      | "+"%char => Some (LNum NESign neg mant nfrac false ex, [])
      | "-"%char => Some (LNum NESign neg mant nfrac true ex, [])
      | _ =>
          match digit_val c with
          | Some d => Some (LNum NExp neg mant nfrac eneg d, [])
          | None => None
          end
      end
  | NESign =>
      match digit_val c with
      | Some d => Some (LNum NExp neg mant nfrac eneg d, [])
      | None => None
      end
  | NExp =>
      match digit_val c with
      | Some d => Some (LNum NExp neg mant nfrac eneg (ex * 10 + d), [])
      | None => end_number ph neg mant nfrac eneg ex c
      end
  end.

Definition escape_char (c : ascii) : option ascii :=
  match c with
  | "034"%char => Some "034"%char
  | "\"%char => Some "\"%char
  | "/"%char => Some "/"%char
  | "b"%char => Some "008"%char
  | "f"%char => Some "012"%char
  | "n"%char => Some "010"%char
  | "r"%char => Some "013"%char
  | "t"%char => Some "009"%char
  | _ => None
  end.

Definition step (m : mode) (c : ascii) : option (mode * list token) :=
  match m with
  | LTop => step_top c
  | LStr units =>
      match c with
      | "034"%char => Some (LTop, [TString (decode_units (rev units))])
      | "\"%char => Some (LStrEsc units, [])
      | _ => if (N_of_ascii c <? 32)%N then None
             else Some (LStr (UByte c :: units), [])
      end
  | LStrEsc units =>
      match c with
      | "u"%char => Some (LStrHex units 0 4, [])
      | _ =>
          match escape_char c with
          | Some c' => Some (LStr (UByte c' :: units), [])
          | None => None
          end
      end
  | LStrHex units acc todo =>
      match hex_val c with
      | Some h =>
          match todo with
          | 0%nat | 1%nat => Some (LStr (UEsc (acc * 16 + h) :: units), [])
          | S k => Some (LStrHex units (acc * 16 + h) k, [])
          end
      | None => None
      end
  | LWord expected v =>
      match expected with
      | String c' rest =>
          if Ascii.eqb c c'
          then match rest with
               | EmptyString => Some (LTop, [TValue v])
               | _ => Some (LWord rest v, [])
               end
          else None
      | EmptyString => None
      end
  | LNum ph neg mant nfrac eneg ex => step_num ph neg mant nfrac eneg ex c
  end.

(** End of the text. *)
Definition finish (m : mode) : option (list token) :=
  match m with
  | LTop => Some []
  | LNum ph neg mant nfrac eneg ex =>
      match num_value ph neg mant nfrac eneg ex with
      | Some v => Some [TValue v]
      | None => None
      end
  | _ => None
  end.

Fixpoint scan (m : mode) (s : string) : option (list token) :=
  match s with
  | EmptyString => finish m
  | String c s' =>
      match step m c with
      | Some (m', ts) =>
          match scan m' s' with
          | Some rest => Some (ts ++ rest)
          | None => None
          end
      | None => None
      end
  end.

(** An open container: the elements of a list so far (latest first), or
    the members of an object so far and the key waiting for its value. *)
Inductive frame :=
| FArr (acc : list pyval)
| FObj (d : dict) (key : option string).

Inductive phase :=
| PhValue | PhValueOrEnd | PhKeyOrEnd | PhKey | PhColon | PhAfter
| PhDone (v : pyval).

(** A value is complete: it is the document, an element or a member. *)
Definition complete (stk : list frame) (v : pyval) : option (list frame * phase) :=
  match stk with
  | [] => Some ([], PhDone v)
  | FArr acc :: st => Some (FArr (v :: acc) :: st, PhAfter)
  | FObj d (Some k) :: st => Some (FObj (dict_set d k v) None :: st, PhAfter)
  | FObj _ None :: _ => None
  end.

Definition parse_value_token (stk : list frame) (t : token)
  : option (list frame * phase) :=
  match t with
  | TString s => complete stk (PStr s)
  | TValue v => complete stk v
  | TLBracket => Some (FArr [] :: stk, PhValueOrEnd)
  | TLBrace => Some (FObj [] None :: stk, PhKeyOrEnd)
  | _ => None
  end.

Definition parse_key_token (stk : list frame) (t : token)
  : option (list frame * phase) :=
  match t, stk with
  | TString k, FObj d None :: st => Some (FObj d (Some k) :: st, PhColon)
  | _, _ => None
  end.

Definition parse_step (stk : list frame) (ph : phase) (t : token)
  : option (list frame * phase) :=
  match ph with
  | PhValue => parse_value_token stk t
  | PhValueOrEnd =>
      match t, stk with
      | TRBracket, FArr acc :: st => complete st (PList (rev acc))
      | _, _ => parse_value_token stk t
      end
  | PhKeyOrEnd =>
      match t, stk with
      | TRBrace, FObj d None :: st => complete st (PDict d)
      | _, _ => parse_key_token stk t
      end
  | PhKey => parse_key_token stk t
  | PhColon =>
      match t with
      | TColon => Some (stk, PhValue)
      | _ => None
      end
  | PhAfter =>
      match t, stk with
      | TComma, FArr _ :: _ => Some (stk, PhValue)
      | TRBracket, FArr acc :: st => complete st (PList (rev acc))
      | TComma, FObj _ None :: _ => Some (stk, PhKey)
      | TRBrace, FObj d None :: st => complete st (PDict d)
      | _, _ => None
      end
  | PhDone _ => None
  end.

Fixpoint parse (stk : list frame) (ph : phase) (ts : list token) : option pyval :=
  match ts with
  | [] => match ph with PhDone v => Some v | _ => None end
  | t :: ts' =>
      match parse_step stk ph t with
      | Some (stk', ph') => parse stk' ph' ts'
      | None => None
      end
  end.

(** [json.loads(s)] for a str [s]; [None] is [JSONDecodeError]. *)
Definition loads (s : string) : option pyval :=
  match scan LTop s with
  | Some ts => parse [] PhValue ts
  | None => None
  end.

End Json.

(** ** urlparse and parse_qs

    [urlparse(raw).query] and [parse_qs] of [urllib.parse] with their
    default arguments.  Not modelled: the validation of a bracketed host as
    an IP address and the NFKC check of a non-ASCII host (on a host they
    refuse, [urlparse] raises ValueError where this model returns the
    query), and the replacement of percent-escapes that are not valid UTF-8
    (the bytes are kept). *)

Module Url.
Import Py.

Fixpoint lstrip_c0_space (s : string) : string :=
  match s with
  | String c s' => if (N_of_ascii c <=? 32)%N then lstrip_c0_space s' else s
  | EmptyString => EmptyString
  end.

(** Tabs and line breaks are removed wherever they stand. *)
Fixpoint remove_unsafe (s : string) : string :=
  match s with
  | EmptyString => EmptyString
  | String c s' =>
      match c with
      | "009"%char | "010"%char | "013"%char => remove_unsafe s'
      | _ => String c (remove_unsafe s')
      end
  end.

(** [s.split(c, 1)]: the text before the first [c] and, when there is
    one, the text after it. *)
Fixpoint split_once (c : ascii) (s : string) : string * option string :=
  match s with
  | EmptyString => (EmptyString, None)
  | String a s' =>
      if Ascii.eqb a c then (EmptyString, Some s')
      else let (b, r) := split_once c s' in (String a b, r)
  end.

(** [s.split(c)] *)
Fixpoint split_on (c : ascii) (s : string) : list string :=
  match s with
  | EmptyString => [EmptyString]
  | String a s' =>
      if Ascii.eqb a c then EmptyString :: split_on c s'
      else match split_on c s' with
           | h :: t => String a h :: t
           | [] => [String a EmptyString]
           end
  end.

Fixpoint has_char (c : ascii) (s : string) : bool :=
  match s with
  | EmptyString => false
  | String a s' => Ascii.eqb a c || has_char c s'
  end.

Definition is_alpha (c : ascii) : bool :=
  let n := N_of_ascii c in
  (((65 <=? n) && (n <=? 90)) || ((97 <=? n) && (n <=? 122)))%N.

Definition is_scheme_char (c : ascii) : bool :=
  let n := N_of_ascii c in
  is_alpha c || ((48 <=? n) && (n <=? 57))%N ||
  match c with "+"%char | "-"%char | "."%char => true | _ => false end.

Fixpoint all_chars (p : ascii -> bool) (s : string) : bool :=
  match s with
  | EmptyString => true
  | String c s' => p c && all_chars p s'
  end.

(** The url without its scheme, when it has one. *)
Definition strip_scheme (url : string) : string :=
  match split_once ":" url with
  | (String c0 before, Some rest) =>
      if is_alpha c0 && all_chars is_scheme_char (String c0 before)
      then rest else url
  | _ => url
  end.

(** The host part ends at the first of [/], [?] and [#]. *)
Fixpoint split_netloc (s : string) : string * string :=
  match s with
  | EmptyString => (EmptyString, EmptyString)
  | String a s' =>
      match a with
      | "/"%char | "?"%char | "#"%char => (EmptyString, s)
      | _ => let (n, r) := split_netloc s' in (String a n, r)
      end
  end.

(** [urlparse(raw).query] *)
Definition urlparse_query (raw : string) : result string :=
  let url := strip_scheme (remove_unsafe (lstrip_c0_space raw)) in
  let checked :=
    match url with
    | String "/" (String "/" after) =>
        let (netloc, rest) := split_netloc after in
        if (has_char "[" netloc && negb (has_char "]" netloc)) ||
           (has_char "]" netloc && negb (has_char "[" netloc))
        then Raise (mk_exn ValueError "Invalid IPv6 URL")
        else Ok rest
    | _ => Ok url
    end in
  bind checked (fun url =>
    let (url, _) := split_once "#" url in
    match split_once "?" url with
    | (_, Some query) => Ok query
    | (_, None) => Ok EmptyString
    end).

Fixpoint plus_to_space (s : string) : string :=
  match s with
  | EmptyString => EmptyString
  | String c s' =>
      String (match c with "+"%char => " "%char | _ => c end) (plus_to_space s')
  end.

(** [unquote]: a percent sign and two hexadecimal digits are one byte. *)
Fixpoint unquote (s : string) : string :=
  match s with
  | EmptyString => EmptyString
  | String c s' =>
      match c, s' with
      | "%"%char, String h1 (String h2 s'') =>
          match Json.hex_val h1, Json.hex_val h2 with
          | Some a, Some b => String (ascii_of_N (a * 16 + b)) (unquote s'')
          | _, _ => String c (unquote s')
          end
      | _, _ => String c (unquote s')
      end
  end.

(** One [name=value] field of [parse_qsl]: fields that are empty, have no
    equals sign or have a blank value are dropped. *)
Definition parse_field (name_value : string) : list (string * string) :=
  if String.eqb name_value "" then []
  else
    match split_once "=" name_value with
    | (name, Some value) =>
        if String.eqb value "" then []
        else [(unquote (plus_to_space name), unquote (plus_to_space value))]
    | (_, None) => []
    end.

Definition parse_qsl (qs : string) : list (string * string) :=
  if String.eqb qs "" then [] else flat_map parse_field (split_on "&" qs).

Definition query_dict := list (string * list string).

(** [parsed_result[name].append(value)] or [parsed_result[name] = [value]] *)
Fixpoint add_value (d : query_dict) (name value : string) : query_dict :=
  match d with
  | [] => [(name, [value])]
  | (k, vs) :: d' =>
      if String.eqb k name then (k, vs ++ [value]) :: d'
      else (k, vs) :: add_value d' name value
  end.

(** [parse_qs(qs)] *)
Definition parse_qs (qs : string) : query_dict :=
  fold_left (fun d nv => add_value d (fst nv) (snd nv)) (parse_qsl qs) [].

End Url.

(** ** The script *)

Import Py.

Definition reference := (pyval * pyval)%type.

(** Body of the loop over [body_json.items()]. *)
Definition json_item (body_json : dict) (paths : list reference)
    (item : string * pyval) : list reference :=
  let (key, val) := item in
  if endswith_any key ["_key"; "_file"; "_path"] && truthy val then
    let bucket :=
      dict_get body_json (replace key "_key" "_bucket")
        (dict_get body_json (replace key "_file" "_bucket")
           (dict_get body_json (replace key "_path" "_bucket") (PStr ""))) in
    if truthy bucket then paths ++ [(bucket, val)] else paths
  else paths.

(** Case 1: raw is JSON.  [body_json.items()] exists only on a dict. *)
Definition json_paths (body_json : pyval) : result (list reference) :=
  match body_json with
  | PDict d => Ok (fold_left (json_item d) d [])
  | _ => Raise (no_attribute body_json "items")
  end.

(** [values[0]] *)
Definition first_value (values : list string) : result string :=
  match values with
  | v :: _ => Ok v
  | [] => Raise (mk_exn IndexError "list index out of range")
  end.

(** Body of the loop over [query_params.items()]; the state is the
    variable [bucket] and the list [paths]. *)
Definition url_item (st : pyval * list reference) (item : string * list string)
  : result (pyval * list reference) :=
  let (bucket, paths) := st in
  let (key, values) := item in
  bind (if contains "bucket" key
        then bind (first_value values) (fun v => Ok (PStr v))
        else Ok bucket)
    (fun bucket =>
       if endswith_any key ["file"; "path"] && negb (Nat.eqb (List.length values) 0) then
         if truthy bucket
         then bind (first_value values) (fun v => Ok (bucket, paths ++ [(bucket, PStr v)]))
         else Ok (bucket, paths)
       else Ok (bucket, paths)).

Fixpoint url_loop (query_params : Url.query_dict) (st : pyval * list reference)
  : result (pyval * list reference) :=
  match query_params with
  | [] => Ok st
  | item :: rest => bind (url_item st item) (url_loop rest)
  end.

(** Case 2: raw is a URL. *)
Definition url_paths (raw_content : string) : result (list reference) :=
  bind (Url.urlparse_query raw_content) (fun query =>
  bind (url_loop (Url.parse_qs query) (PNone, [])) (fun st => Ok (snd st))).

(** [extract_paths_from_raw(raw_content)].  [json.loads] takes a str; the
    [except] clause catches [JSONDecodeError] only. *)
Definition extract_paths_from_raw (raw_content : pyval) : result (list reference) :=
  match raw_content with
  | PStr raw =>
      match Json.loads raw with
      | Some body_json => json_paths body_json
      | None => url_paths raw
      end
  | _ =>
      Raise (mk_exn TypeError
               ("the JSON object must be str, bytes or bytearray, not "
                  ++ type_name raw_content))
  end.

(** What [pd.read_parquet] returns, as far as the script looks at it. *)
Record dataframe := mk_df { df_rows : nat; df_columns : list string }.

(** [df.empty]: an axis of length zero. *)
Definition df_empty (df : dataframe) : bool :=
  Nat.eqb (df_rows df) 0 || Nat.eqb (List.length (df_columns df)) 0.

Definition in_columns (name : string) (df : dataframe) : bool :=
  existsb (String.eqb name) (df_columns df).

(** A call to the object store. *)
Inductive s3_call :=
| HeadObject (bucket key : pyval)
| GetObject (bucket key : pyval).

(** The three lists and the counter of [check_service]. *)
Record checks := mk_checks {
  file_access_failed : list (string * string);
  room_category_failed : list string;
  empty_file_failed : list string;
  files_checked : nat
}.

Definition no_checks : checks := mk_checks [] [] [] 0.

Definition access_failure (acc : checks) (s3_path reason : string) : checks :=
  mk_checks (file_access_failed acc ++ [(s3_path, reason)])
    (room_category_failed acc) (empty_file_failed acc) (files_checked acc).

Definition count_checked (acc : checks) : checks :=
  mk_checks (file_access_failed acc) (room_category_failed acc)
    (empty_file_failed acc) (files_checked acc + 1).

Definition room_category_failure (acc : checks) (s3_path : string) : checks :=
  mk_checks (file_access_failed acc) (room_category_failed acc ++ [s3_path])
    (empty_file_failed acc) (files_checked acc).

Definition empty_file_failure (acc : checks) (s3_path : string) : checks :=
  mk_checks (file_access_failed acc) (room_category_failed acc)
    (empty_file_failed acc ++ [s3_path]) (files_checked acc).

(** The lines printed after the loop, one per [print] call. *)
Definition access_lines (acc : checks) : list string :=
  match file_access_failed acc with
  | [] => ["file_accessible : Passed"]
  | failed =>
      "file_accessible : Failed"
        :: map (fun pr => ("  " ++ fst pr ++ " -> " ++ snd pr)%string) failed
  end.

Definition bucket_lines (title : string) (failed : list string) : list string :=
  match failed with
  | [] => [(title ++ " : Passed")%string]
  | _ => (title ++ " : Failed")%string :: map (fun p => ("  " ++ p)%string) failed
  end.

Definition print_results (acc : checks) : list string :=
  access_lines acc ++
  if Nat.eqb (files_checked acc) 0 then
    ["room_category_check : Failed (no accessible files)";
     "empty_file : Failed (no accessible files)"]
  else
    bucket_lines "room_category_check" (room_category_failed acc) ++
    bucket_lines "empty_file" (empty_file_failed acc).

(** [next((item for item in items if item["name"] == service_name), None)]:
    items are examined in order until the first match. *)
Fixpoint find_service (items : list pyval) (service_name : string)
  : result (option pyval) :=
  match items with
  | [] => Ok None
  | item :: rest =>
      bind (getitem item "name") (fun name =>
        if eq_str name service_name then Ok (Some item)
        else find_service rest service_name)
  end.

(** [if field in service_item["request"] and "raw" in
    service_item["request"][field]]: the raw text
    [service_item["request"][field]["raw"]] to extract from, if any. *)
Definition raw_field (service_item : pyval) (field : string) : result (option pyval) :=
  bind (getitem service_item "request") (fun request =>
  bind (contains_str field request) (fun present =>
    if present then
      bind (getitem request field) (fun part =>
      bind (contains_str "raw" part) (fun has_raw =>
        if has_raw then bind (getitem part "raw") (fun raw => Ok (Some raw))
        else Ok None))
    else Ok None)).

Definition extend_from (service_item : pyval) (field : string)
    (paths : list reference) : result (list reference) :=
  bind (raw_field service_item field) (fun raw =>
    match raw with
    | Some raw_content =>
        bind (extract_paths_from_raw raw_content) (fun found => Ok (paths ++ found))
    | None => Ok paths
    end).

(** The list [paths]: from [body.raw], then from [url.raw]. *)
Definition collect_paths (service_item : pyval) : result (list reference) :=
  bind (extend_from service_item "body" []) (extend_from service_item "url").

(** [v] is a dict with a key [field]. *)
Definition has_field (v : pyval) (field : string) : bool :=
  match v with
  | PDict d => match dict_lookup d field with Some _ => true | None => false end
  | _ => false
  end.

(** [item] has a name and it is not [service_name]. *)
Definition other_name (service_name : string) (item : pyval) : bool :=
  match getitem item "name" with
  | Ok name => negb (eq_str name service_name)
  | Raise _ => false
  end.

(** [item] has the name [service_name]. *)
Definition named (service_name : string) (item : pyval) : bool :=
  match getitem item "name" with
  | Ok name => eq_str name service_name
  | Raise _ => false
  end.

(** [str(n)] for an int: its decimal digits. *)
Definition str_of_int (z : Z) : string :=
  DecimalString.NilZero.string_of_int (Z.to_int z).

Section Checker.

(** The state of the world the object store answers from. *)
Variable world : Type.
(** [open(json_path).read()] *)
Variable read_text : string -> result string.
(** [s3.head_object(Bucket=bucket, Key=key)] *)
Variable head_object : world -> pyval -> pyval -> result unit * world.
(** [s3.get_object(Bucket=bucket, Key=key)["Body"].read()] *)
Variable get_object : world -> pyval -> pyval -> result string * world.
(** [pd.read_parquet(BytesIO(data))] *)
Variable read_parquet : string -> result dataframe.
(** [str(v)] for a value that is not a str, None, a bool or an int. *)
Variable py_repr : pyval -> string.
(** [json.loads(data)] for the bytes [data] of a stored object: the
    encoding is detected (UTF-8 with or without a byte order mark, UTF-16,
    UTF-32), the bytes are decoded and the text is parsed.  It raises
    UnicodeDecodeError on bytes that do not decode and JSONDecodeError on a
    text that is not JSON. *)
Variable json_loads_bytes : string -> result pyval.
(** [str(e)] of the [JSONDecodeError] raised on a text. *)
Variable json_error_text : string -> string.

(** [str(v)], as an f-string formats it. *)
Definition py_str (v : pyval) : string :=
  match v with
  | PStr s => s
  | PNone => "None"
  | PBool true => "True"
  | PBool false => "False"
  | PInt z => str_of_int z
  | _ => py_repr v
  end.

Definition s3_path (bucket key : pyval) : string :=
  ("s3://" ++ py_str bucket ++ "/" ++ py_str key)%string.

(** [json.loads(text)] for a str, as [json.load] applies it to the text of
    the collection file. *)
Definition json_loads (text : string) : result pyval :=
  match Json.loads text with
  | Some v => Ok v
  | None => Raise (mk_exn JSONDecodeError (json_error_text text))
  end.

(** The world and the calls made to the store so far. *)
Record store := mk_store { st_world : world; st_calls : list s3_call }.

Definition s3_head (s : store) (bucket key : pyval) : result unit * store :=
  let (r, w) := head_object (st_world s) bucket key in
  (r, mk_store w (st_calls s ++ [HeadObject bucket key])).

Definition s3_get (s : store) (bucket key : pyval) : result string * store :=
  let (r, w) := get_object (st_world s) bucket key in
  (r, mk_store w (st_calls s ++ [GetObject bucket key])).

(** After a parquet file was read. *)
Definition parquet_checks (acc : checks) (path : string) (df : dataframe) : checks :=
  let acc := count_checked acc in
  let acc := if df_empty df then empty_file_failure acc path else acc in
  if negb (in_columns "room_category" df) then room_category_failure acc path
  else acc.

(** After a json file was read. *)
Definition json_checks (acc : checks) (path : string) (content : pyval) : checks :=
  let acc := count_checked acc in
  match content with
  | PDict d =>
      match dict_lookup d "room_category" with
      | None => room_category_failure acc path
      | Some _ => acc
      end
  | _ => acc
  end.

(** The body of the second [try].  Whatever raises does so before the
    lists and the counter are touched, so a raised exception leaves
    [acc] as it was.  The content of a [.json] object goes to [json.loads]
    as the bytes that were read. *)
Definition check_content (s : store) (acc : checks) (bucket key : pyval)
    (path : string) : result checks * store :=
  match key with
  | PStr k =>
      if endswith k ".parquet" then
        let (r, s1) := s3_get s bucket key in
        (bind r (fun data =>
         bind (read_parquet data) (fun df =>
         Ok (parquet_checks acc path df))), s1)
      else if endswith k ".json" then
        let (r, s1) := s3_get s bucket key in
        (bind r (fun data =>
         bind (json_loads_bytes data) (fun content =>
         Ok (json_checks acc path content))), s1)
      else (Ok acc, s)
  | _ => (Raise (no_attribute key "endswith"), s)
  end.

(** The body of the loop over [paths]. *)
Definition check_reference (st : checks * store) (ref : reference) : checks * store :=
  let (acc, s) := st in
  let (bucket, key) := ref in
  let path := s3_path bucket key in
  let (probe, s1) := s3_head s bucket key in
  match probe with
  | Raise _ => (access_failure acc path "unable to access the file", s1)
  | Ok _ =>
      let (r, s2) := check_content s1 acc bucket key path in
      match r with
      | Ok acc' => (acc', s2)
      | Raise e => (access_failure acc path (exn_msg e), s2)
      end
  end.

Definition run_checks (st : checks * store) (paths : list reference) : checks * store :=
  fold_left check_reference paths st.

(** What a call of [check_service] did: how it ended, what it printed
    and how it left the store. *)
Record run := mk_run {
  run_result : result unit;
  run_out : list string;
  run_store : store
}.

Definition not_found (service_name : string) (s : store) : run :=
  mk_run (Ok tt) [("Service '" ++ service_name ++ "' not found in JSON")%string] s.

Definition raised (e : exn) (s : store) : run := mk_run (Raise e) [] s.

(** [with open(json_path, "r") as f: data = json.load(f)] *)
Definition load_collection (json_path : string) : result pyval :=
  bind (read_text json_path) json_loads.

(** From [paths = []] to the end of [check_service], for the entry that
    was found. *)
Definition check_item (w : world) (service_item : pyval) : run :=
  let s := mk_store w [] in
  match collect_paths service_item with
  | Raise e => raised e s
  | Ok paths =>
      let (acc, s') := run_checks (no_checks, s) paths in
      mk_run (Ok tt) (print_results acc) s'
  end.

Definition check_service (w : world) (json_path service_name : string) : run :=
  let s := mk_store w [] in
  match load_collection json_path with
  | Raise e => raised e s
  | Ok data =>
      match bind (bind (getitem data "item") iterate)
              (fun items => find_service items service_name) with
      | Raise e => raised e s
      | Ok None => not_found service_name s
      | Ok (Some service_item) =>
          if negb (truthy service_item) then not_found service_name s
          else check_item w service_item
      end
  end.

(** *** The entry point *)

(** What the process did: its exit status, what it wrote to standard
    output and how it left the store.  A traceback goes to standard error
    and is not part of [printed]. *)
Record process := mk_process {
  exit_status : Z;
  printed : list string;
  proc_store : store
}.

Definition usage : string :=
  "Usage: python check_quality.py <json_file_path> <service_name>".

(** The block under [if __name__ == "__main__"]; [argv] is [sys.argv].
    [sys.exit(1)] and an exception that nothing catches both end the
    process with status 1. *)
Definition main (w : world) (argv : list string) : process :=
  if negb (Nat.eqb (List.length argv) 3) then
    mk_process 1 [usage] (mk_store w [])
  else
    let r := check_service w (nth 1 argv "") (nth 2 argv "") in
    mk_process (match run_result r with Ok _ => 0 | Raise _ => 1 end)%Z
      (run_out r) (run_store r).

(** *** Conditions the statements below are about *)

(** The content of an accessible [.parquet] or [.json] reference cannot
    be fetched, or is fetched and cannot be decoded; [e] is what is
    raised, whatever its class (for a [.json] object, UnicodeDecodeError
    as well as JSONDecodeError). *)
Definition content_read_fails (w : world) (bucket : pyval) (k : string)
    (e : exn) : Prop :=
  (endswith k ".parquet" = true /\
     (fst (get_object w bucket (PStr k)) = Raise e \/
      exists data, fst (get_object w bucket (PStr k)) = Ok data /\
                   read_parquet data = Raise e))
  \/
  (endswith k ".parquet" = false /\ endswith k ".json" = true /\
     (fst (get_object w bucket (PStr k)) = Raise e \/
      exists data, fst (get_object w bucket (PStr k)) = Ok data /\
                   json_loads_bytes data = Raise e)).

(** The probe of every reference of [paths] fails, whatever the state of
    the store. *)
Definition all_probes_fail (paths : list reference) : Prop :=
  forall bucket key w, In (bucket, key) paths ->
    exists e, fst (head_object w bucket key) = Raise e.

(** An input [check_service] has no handler for: the collection cannot be
    loaded; it has no [item] field; an entry reached by the search for
    the name has no [name] field; the entry found has no [request]
    field. *)
Inductive unhandled (json_path service_name : string) : Prop :=
| load_fails (e : exn) :
    load_collection json_path = Raise e ->
    unhandled json_path service_name
| no_item (data : pyval) :
    load_collection json_path = Ok data ->
    has_field data "item" = false ->
    unhandled json_path service_name
| no_name (data : pyval) (before after : list pyval) (entry : pyval) :
    load_collection json_path = Ok data ->
    getitem data "item" = Ok (PList (before ++ entry :: after)) ->
    forallb (other_name service_name) before = true ->
    has_field entry "name" = false ->
    unhandled json_path service_name
| no_request (data : pyval) (before after : list pyval) (entry : pyval) :
    load_collection json_path = Ok data ->
    getitem data "item" = Ok (PList (before ++ entry :: after)) ->
    forallb (other_name service_name) before = true ->
    named service_name entry = true ->
    has_field entry "request" = false ->
    unhandled json_path service_name.

End Checker.

(** The reading under which every incomplete entry of the collection makes
    [check_service] raise, wherever the entry stands. *)
Definition raises_on_any_incomplete_entry : Prop :=
  forall (world : Type) read_text head_object get_object read_parquet py_repr
         json_loads_bytes json_error_text (w : world) json_path service_name
         data items entry,
    load_collection read_text json_error_text json_path = Ok data ->
    getitem data "item" = Ok (PList items) ->
    In entry items ->
    has_field entry "name" = false \/ has_field entry "request" = false ->
    exists e,
      run_result world
        (check_service world read_text head_object get_object read_parquet
           py_repr json_loads_bytes json_error_text w json_path service_name)
      = Raise e.

(** The key of a reference is a str ending in [.parquet] or [.json]. *)
Definition checkable_key (key : pyval) : bool :=
  match key with
  | PStr k => endswith k ".parquet" || endswith k ".json"
  | _ => false
  end.

(** ** The JSON branch: what the code looks up *)

(** The keys the nested [get] calls look up for [key], in order.  They
    are built with [str.replace], which leaves a key without the pattern
    unchanged: for a key ending in [_file] the first of them is the key
    itself. *)
Definition bucket_chain (key : string) : list string :=
  [replace key "_key" "_bucket";
   replace key "_file" "_bucket";
   replace key "_path" "_bucket"].

(** The value of the first key of [keys] that is present in [d]. *)
Fixpoint first_present (d : dict) (keys : list string) : option pyval :=
  match keys with
  | [] => None
  | k :: ks =>
      match dict_lookup d k with
      | Some v => Some v
      | None => first_present d ks
      end
  end.

(** The references the body of the loop adds for a member. *)
Definition member_refs (d : dict) (item : string * pyval) : list reference :=
  let (key, val) := item in
  if endswith_any key ["_key"; "_file"; "_path"] && truthy val then
    match first_present d (bucket_chain key) with
    | Some bucket => if truthy bucket then [(bucket, val)] else []
    | None => []
    end
  else [].

(** ** The JSON branch in the words of the specification *)

(** The companion key: [key] with its suffix replaced by [_bucket], when
    [key] ends in [suffix]. *)
Definition companion_key (key suffix : string) : option string :=
  if endswith key suffix then
    Some (substring 0 (String.length key - String.length suffix) key ++ "_bucket")%string
  else None.

(** The companion keys of [key], the suffixes taken in the fixed order
    [_key], [_file], [_path]. *)
Definition companion_keys (key : string) : list string :=
  flat_map (fun suffix => match companion_key key suffix with
                          | Some k => [k]
                          | None => []
                          end)
    ["_key"; "_file"; "_path"].

(** The references of a member: its value with the first companion bucket
    that is present, when both are non-empty. *)
Definition companion_refs (d : dict) (item : string * pyval) : list reference :=
  let (key, val) := item in
  if endswith_any key ["_key"; "_file"; "_path"] && truthy val then
    match first_present d (companion_keys key) with
    | Some bucket => if truthy bucket then [(bucket, val)] else []
    | None => []
    end
  else [].

(** ** The URL scan in the words of the specification *)

(** The current bucket after the parameters [seen]: the first value of the
    latest parameter whose name contains [bucket]. *)
Definition current_bucket (seen : Url.query_dict) : option string :=
  fold_left
    (fun cur item => if contains "bucket" (fst item) then hd_error (snd item) else cur)
    seen None.

(** The references of the parameters [rest], scanned after [seen]. *)
Fixpoint spec_scan (seen rest : Url.query_dict) : list reference :=
  match rest with
  | [] => []
  | (name, values) :: rest' =>
      let seen' := seen ++ [(name, values)] in
      match values, current_bucket seen' with
      | v :: _, Some b =>
          if endswith_any name ["file"; "path"] then [(PStr b, PStr v)] else []
      | _, _ => []
      end ++ spec_scan seen' rest'
  end.

(** The variable [bucket] after the parameters [seen]. *)
Definition bucket_value (seen : Url.query_dict) : pyval :=
  match current_bucket seen with
  | Some b => PStr b
  | None => PNone
  end.

(** Every parameter of a parsed query has a first value, and it is not
    blank. *)
Definition wf_params (ps : Url.query_dict) : Prop :=
  Forall (fun item => exists v vs, snd item = v :: vs /\ v <> "") ps.

(** The calls to the store that one reference can give rise to: its
    probe, and after it the fetch of its content when the key is
    checkable. *)
Definition calls_of_reference (ref : reference) (calls : list s3_call) : Prop :=
  calls = [HeadObject (fst ref) (snd ref)] \/
  (checkable_key (snd ref) = true /\
   calls = [HeadObject (fst ref) (snd ref); GetObject (fst ref) (snd ref)]).

(** The report when nothing failed and something was checked. *)
Definition all_passed : list string :=
  ["file_accessible : Passed"; "room_category_check : Passed"; "empty_file : Passed"].

(** The report when there was nothing to check. *)
Definition nothing_checked : list string :=
  ["file_accessible : Passed";
   "room_category_check : Failed (no accessible files)";
   "empty_file : Failed (no accessible files)"].

(** ** A small in-memory instance of the parameters

    Used to run the checker on examples: the world is the list of stored
    objects, a parquet file is the word PAR1 followed by one character per
    row, a JSON object is a UTF-8 text with or without a byte order mark,
    and the collection is the file [collection.json]. *)

Module Demo.

Definition world := list (string * string * string).

Fixpoint find_object (w : world) (bucket key : string) : option string :=
  match w with
  | [] => None
  | (b, k, data) :: w' =>
      if String.eqb b bucket && String.eqb k key then Some data
      else find_object w' bucket key
  end.

Definition not_found_error (op : string) : exn :=
  mk_exn StorageError
    ("An error occurred (404) when calling the " ++ op ++ " operation: Not Found").

Definition head_object (w : world) (bucket key : pyval) : result unit * world :=
  match bucket, key with
  | PStr b, PStr k =>
      match find_object w b k with
      | Some _ => (Ok tt, w)
      | None => (Raise (not_found_error "HeadObject"), w)
      end
  | _, _ => (Raise (mk_exn StorageError "Parameter validation failed"), w)
  end.

Definition get_object (w : world) (bucket key : pyval) : result string * world :=
  match bucket, key with
  | PStr b, PStr k =>
      match find_object w b k with
      | Some data => (Ok data, w)
      | None => (Raise (not_found_error "GetObject"), w)
      end
  | _, _ => (Raise (mk_exn StorageError "Parameter validation failed"), w)
  end.

Definition read_parquet (data : string) : result dataframe :=
  match data with
  | String "P" (String "A" (String "R" (String "1" rows))) =>
      Ok (mk_df (String.length rows) ["room_category"])
  | _ => Raise (mk_exn DecodeError "Parquet magic bytes not found")
  end.

Definition py_repr (v : pyval) : string := "<" ++ type_name v ++ ">".

Definition json_error_text (text : string) : string :=
  "Expecting value: line 1 column 1 (char 0)".

(** The objects of this store are UTF-8 texts, with or without a byte
    order mark. *)
Definition strip_bom (data : string) : string :=
  match data with
  | String "239" (String "187" (String "191" text)) => text
  | _ => data
  end.

(** What a lead byte announces: how many continuation bytes follow and the
    range of the first of them (lone surrogates are let through, as the
    decoder of [json.loads] does). *)
Definition lead_byte (c : ascii) : option (nat * N * N) :=
  let n := N_of_ascii c in
  (if n <? 128 then Some (0%nat, 128, 191)
   else if (194 <=? n) && (n <=? 223) then Some (1%nat, 128, 191)
   else if n =? 224 then Some (2%nat, 160, 191)
   else if (225 <=? n) && (n <=? 239) then Some (2%nat, 128, 191)
   else if n =? 240 then Some (3%nat, 144, 191)
   else if (241 <=? n) && (n <=? 243) then Some (3%nat, 128, 191)
   else if n =? 244 then Some (3%nat, 128, 143)
   else None)%N.

(** [pending] continuation bytes are still due, the next of them between
    [lo] and [hi]. *)
Fixpoint well_formed_utf8 (pending : nat) (lo hi : N) (data : string) : bool :=
  match data with
  | EmptyString => Nat.eqb pending 0
  | String c rest =>
      match pending with
      | S k =>
          ((lo <=? N_of_ascii c) && (N_of_ascii c <=? hi))%N
          && well_formed_utf8 k 128 191 rest
      | O =>
          match lead_byte c with
          | Some (k, lo', hi') => well_formed_utf8 k lo' hi' rest
          | None => false
          end
      end
  end.

Definition json_loads_bytes (data : string) : result pyval :=
  if well_formed_utf8 0 128 191 data then
    match Json.loads (strip_bom data) with
    | Some v => Ok v
    | None => Raise (mk_exn JSONDecodeError (json_error_text (strip_bom data)))
    end
  else
    Raise (mk_exn UnicodeDecodeError
             "'utf-8' codec can't decode bytes: invalid or truncated sequence").

Definition collection : string :=
  (dq "{'item': [{'name': 'other', 'request': {}}, {'name': 'rooms', 'request': {'url': {'raw': 'http://x/y?input_bucket=b1&input_file=a.json'}}}, {'id': 7}]}").

Definition read_text (path : string) : result string :=
  if String.eqb path "collection.json" then Ok collection
  else if String.eqb path "broken.json" then Ok (dq "{'item': ")
  else if String.eqb path "empty.json" then Ok "{}"
  else if String.eqb path "two.json" then
    Ok (dq "{'item': [{'name': 'a', 'request': {}}, {'name': 'b', 'request': {}}]}")
  else Raise (mk_exn OSError "[Errno 2] No such file or directory").

(** Two stored objects: a JSON object whose string holds the byte FF, and
    an empty JSON object behind a byte order mark. *)
Definition bad_utf8 : string :=
  (dq "{'a': '" ++ String "255" (dq "'}"))%string.

Definition bom_object : string :=
  String "239" (String "187" (String "191" "{}")).

Definition check (w : world) (json_path service_name : string) : run world :=
  check_service world read_text head_object get_object read_parquet py_repr
    json_loads_bytes json_error_text w json_path service_name.

Definition check_entry (w : world) (service_item : pyval) : run world :=
  check_item world head_object get_object read_parquet py_repr
    json_loads_bytes w service_item.

Definition run_paths (st : checks * store world) (paths : list reference)
  : checks * store world :=
  run_checks world head_object get_object read_parquet py_repr
    json_loads_bytes st paths.

(** Before the first reference. *)
Definition start (w : world) : checks * store world := (no_checks, mk_store world w []).

(** The entries of [collection.json]. *)
Definition other_entry : pyval :=
  PDict [("name", PStr "other"); ("request", PDict [])].

Definition rooms_entry : pyval :=
  PDict [("name", PStr "rooms");
         ("request",
          PDict [("url",
                  PDict [("raw", PStr "http://x/y?input_bucket=b1&input_file=a.json")])])].

Definition nameless_entry : pyval := PDict [("id", PInt 7)].

(** An entry whose only reference is neither parquet nor json. *)
Definition csv_entry : pyval :=
  PDict [("name", PStr "csv");
         ("request",
          PDict [("url",
                  PDict [("raw", PStr "http://x/y?input_bucket=b1&input_file=a.csv")])])].

End Demo.

(** More collections for the in-memory instance. *)

Module Cases.

(** An entry whose body is a JSON list and whose url has a reference. *)
Definition list_body_entry : pyval :=
  PDict [("name", PStr "svc");
         ("request",
          PDict [("body", PDict [("raw", PStr "[1, 2]")]);
                 ("url",
                  PDict [("raw", PStr "http://x/y?input_bucket=b1&input_file=a.json")])])].

(** An entry with references in the body and in the url. *)
Definition both_entry : pyval :=
  PDict [("name", PStr "both");
         ("request",
          PDict [("body",
                  PDict [("raw", PStr (dq "{'in_key': 'a.parquet', 'in_bucket': 'b1'}"))]);
                 ("url",
                  PDict [("raw", PStr "http://x/y?out_bucket=b2&out_path=c.csv")])])].

Definition read_text (path : string) : result string :=
  if String.eqb path "list_body.json" then
    Ok (dq "{'item': [{'name': 'svc', 'request': {'body': {'raw': '[1, 2]'}, 'url': {'raw': 'http://x/y?input_bucket=b1&input_file=a.json'}}}]}")
  else Demo.read_text path.

Definition check (w : Demo.world) (json_path service_name : string) : run Demo.world :=
  check_service Demo.world read_text Demo.head_object Demo.get_object
    Demo.read_parquet Demo.py_repr Demo.json_loads_bytes Demo.json_error_text
    w json_path service_name.

(** An entry whose only reference is a parquet file. *)
Definition parquet_entry : pyval :=
  PDict [("name", PStr "table");
         ("request",
          PDict [("url",
                  PDict [("raw", PStr "http://x/y?input_bucket=b1&input_file=a.parquet")])])].

(** A store that cannot be reached. *)
Definition unreachable : exn :=
  mk_exn StorageError "Could not connect to the endpoint URL".

Definition offline_head (w : unit) (bucket key : pyval) : result unit * unit :=
  (Raise unreachable, w).

Definition offline_get (w : unit) (bucket key : pyval) : result string * unit :=
  (Raise unreachable, w).

Definition check_offline (service_item : pyval) : run unit :=
  check_item unit offline_head offline_get Demo.read_parquet Demo.py_repr
    Demo.json_loads_bytes tt service_item.

Definition run_main (w : Demo.world) (argv : list string) : process Demo.world :=
  main Demo.world Demo.read_text Demo.head_object Demo.get_object
    Demo.read_parquet Demo.py_repr Demo.json_loads_bytes Demo.json_error_text w argv.

End Cases.

(** * Properties *)

(** ** Path extraction, JSON branch *)

Section JsonBranch.

Variable d : dict.

Lemma nested_get_first_present (k1 k2 k3 : string) :
  dict_get d k1 (dict_get d k2 (dict_get d k3 (PStr ""))) =
  match first_present d [k1; k2; k3] with
  | Some v => v
  | None => PStr ""
  end.
Proof.
  unfold dict_get; simpl.
  destruct (dict_lookup d k1); [reflexivity|].
  destruct (dict_lookup d k2); [reflexivity|].
  destruct (dict_lookup d k3); reflexivity.
Qed.

Lemma json_item_spec (paths : list reference) (item : string * pyval) :
  json_item d paths item = paths ++ member_refs d item.
Proof.
  destruct item as [key val]; unfold json_item, member_refs.
  destruct (endswith_any key _ && truthy val); [|now rewrite app_nil_r].
  rewrite nested_get_first_present; unfold bucket_chain.
  destruct (first_present d _) as [b|]; simpl.
  - destruct (truthy b); [reflexivity | now rewrite app_nil_r].
  - now rewrite app_nil_r.
Qed.

Lemma json_loop_spec (items : list (string * pyval)) (paths : list reference) :
  fold_left (json_item d) items paths = paths ++ flat_map (member_refs d) items.
Proof.
  revert paths; induction items as [|item items IH]; intros paths; simpl.
  - now rewrite app_nil_r.
  - rewrite IH, json_item_spec, <- app_assoc; reflexivity.
Qed.

End JsonBranch.

(** C1.  On the document with the single member foo_key = a.json the
    extractor does not return the empty list: the no-op substitution of
    [_file] in [foo_key] looks the key itself up, so its own value is taken
    as the bucket and the reference (a.json, a.json) is returned. *)
Theorem extract_missing_bucket :
  extract_paths_from_raw (PStr (dq "{'foo_key': 'a.json'}"))
    = Ok [(PStr "a.json", PStr "a.json")]
  /\ extract_paths_from_raw (PStr (dq "{'foo_key': 'a.json'}")) <> Ok [].
Proof.
  split; [reflexivity | discriminate].
Qed.

(** C2.  A text that parses as JSON to a list is not answered with the
    empty list: [body_json.items()] raises AttributeError, which the
    [except json.JSONDecodeError] clause does not catch. *)
Theorem extract_list_raises :
  Json.loads "[1, 2]" = Some (PList [PInt 1; PInt 2])
  /\ extract_paths_from_raw (PStr "[1, 2]")
       = Raise (mk_exn AttributeError "'list' object has no attribute 'items'").
Proof.
  split; reflexivity.
Qed.

(** C3.  On the body with the members in_file = a.json and in_bucket = b1
    the bucket of the reference is not the companion bucket b1: the
    substitution of [_key] does not apply to in_file and leaves it
    unchanged, so the first lookup of the chain finds the member itself and
    the reference is (a.json, a.json).  With the companion key of the
    specification the reference is (b1, a.json). *)
Theorem companion_bucket_ignored :
  Json.loads (dq "{'in_file': 'a.json', 'in_bucket': 'b1'}")
    = Some (PDict [("in_file", PStr "a.json"); ("in_bucket", PStr "b1")])
  /\ bucket_chain "in_file" = ["in_file"; "in_bucket"; "in_file"]
  /\ companion_keys "in_file" = ["in_bucket"]
  /\ extract_paths_from_raw (PStr (dq "{'in_file': 'a.json', 'in_bucket': 'b1'}"))
       = Ok [(PStr "a.json", PStr "a.json")]
  /\ flat_map (companion_refs [("in_file", PStr "a.json"); ("in_bucket", PStr "b1")])
       [("in_file", PStr "a.json"); ("in_bucket", PStr "b1")]
       = [(PStr "b1", PStr "a.json")].
Proof.
  repeat split; reflexivity.
Qed.

(** ** Path extraction, URL branch *)

Lemma unquote_nonempty (s : string) : s <> "" -> Url.unquote s <> "".
Proof.
  destruct s as [|c s]; [congruence|]; intros _; simpl.
  destruct c as [[] [] [] [] [] [] [] []]; try discriminate;
    destruct s as [|h1 [|h2 s]]; try discriminate;
    destruct (Json.hex_val h1), (Json.hex_val h2); discriminate.
Qed.

Lemma plus_to_space_nonempty (s : string) : s <> "" -> Url.plus_to_space s <> "".
Proof.
  destruct s; [congruence | discriminate].
Qed.

Lemma parse_field_values (nv : string) :
  Forall (fun p => snd p <> "") (Url.parse_field nv).
Proof.
  unfold Url.parse_field.
  destruct (String.eqb nv ""); [constructor|].
  destruct (Url.split_once "=" nv) as [name [value|]]; [|constructor].
  destruct (String.eqb_spec value ""); constructor; [|constructor].
  simpl; now apply unquote_nonempty, plus_to_space_nonempty.
Qed.

Lemma parse_qsl_values (qs : string) :
  Forall (fun p => snd p <> "") (Url.parse_qsl qs).
Proof.
  unfold Url.parse_qsl; destruct (String.eqb qs ""); [constructor|].
  induction (Url.split_on "&" qs) as [|nv l IH]; simpl; [constructor|].
  apply Forall_app; split; [apply parse_field_values | exact IH].
Qed.

Lemma add_value_wf (ps : Url.query_dict) (name value : string) :
  wf_params ps -> value <> "" -> wf_params (Url.add_value ps name value).
Proof.
  unfold wf_params; intros Hps Hv; induction Hps as [|[k vs] ps Hk Hps IH]; simpl.
  - constructor; [|constructor]. now exists value, [].
  - destruct (String.eqb k name); constructor; auto.
    destruct Hk as (v & vs' & Hvs & Hne); simpl in *; subst vs.
    now exists v, (vs' ++ [value]).
Qed.

Lemma parse_qs_wf (qs : string) : wf_params (Url.parse_qs qs).
Proof.
  unfold Url.parse_qs.
  assert (Hgen : forall pairs acc,
             Forall (fun p => snd p <> "") pairs -> wf_params acc ->
             wf_params (fold_left (fun d nv => Url.add_value d (fst nv) (snd nv)) pairs acc)).
  { induction pairs as [|p pairs IH]; intros acc Hp Hacc; simpl; [exact Hacc|].
    inversion Hp; subst. apply IH; [assumption|]. now apply add_value_wf. }
  apply Hgen; [apply parse_qsl_values | constructor].
Qed.

Lemma current_bucket_snoc (seen : Url.query_dict) (item : string * list string) :
  current_bucket (seen ++ [item]) =
  if contains "bucket" (fst item) then hd_error (snd item) else current_bucket seen.
Proof.
  unfold current_bucket; now rewrite fold_left_app.
Qed.

(** The current bucket comes from a parameter already seen. *)
Lemma current_bucket_seen (seen : Url.query_dict) (b : string) :
  current_bucket seen = Some b ->
  exists name values,
    In (name, values) seen /\ contains "bucket" name = true /\ hd_error values = Some b.
Proof.
  induction seen as [|[name values] seen IH] using rev_ind; [discriminate|].
  rewrite current_bucket_snoc; simpl.
  destruct (contains "bucket" name) eqn:Hname; intros Hb.
  - exists name, values; rewrite in_app_iff; simpl; auto.
  - destruct (IH Hb) as (n & vs & Hin & Hn & Hvs).
    exists n, vs; rewrite in_app_iff; auto.
Qed.

Lemma current_bucket_nonempty (seen : Url.query_dict) (b : string) :
  wf_params seen -> current_bucket seen = Some b -> b <> "".
Proof.
  intros Hwf Hb; apply current_bucket_seen in Hb as (n & vs & Hin & _ & Hvs).
  unfold wf_params in Hwf; rewrite Forall_forall in Hwf.
  destruct (Hwf _ Hin) as (v & vs' & Heq & Hne); simpl in Heq; subst vs.
  simpl in Hvs; congruence.
Qed.

Lemma truthy_bucket_value (seen : Url.query_dict) :
  wf_params seen ->
  truthy (bucket_value seen) = match current_bucket seen with Some _ => true | None => false end.
Proof.
  intros Hwf; unfold bucket_value.
  destruct (current_bucket seen) as [b|] eqn:Hb; [|reflexivity]; simpl.
  pose proof (current_bucket_nonempty _ _ Hwf Hb) as Hne.
  now destruct (String.eqb_spec b "").
Qed.

Lemma url_loop_spec (rest seen : Url.query_dict) (paths : list reference) :
  wf_params seen -> wf_params rest ->
  url_loop rest (bucket_value seen, paths)
    = Ok (bucket_value (seen ++ rest), paths ++ spec_scan seen rest).
Proof.
  revert seen paths; induction rest as [|[name values] rest IH]; intros seen paths Hseen Hrest.
  - simpl; now rewrite !app_nil_r.
  - inversion Hrest as [|? ? (v & vs & Hvs & Hne) Hrest']; subst; simpl in Hvs; subst values.
    assert (Hseen' : wf_params (seen ++ [(name, v :: vs)])).
    { apply Forall_app; split; [exact Hseen|]. constructor; [|constructor].
      now exists v, vs. }
    assert (Hstep : url_item (bucket_value seen, paths) (name, v :: vs)
                    = Ok (bucket_value (seen ++ [(name, v :: vs)]),
                          paths ++ match current_bucket (seen ++ [(name, v :: vs)]) with
                                   | Some b => if endswith_any name ["file"; "path"]
                                               then [(PStr b, PStr v)] else []
                                   | None => []
                                   end)).
    { pose proof (truthy_bucket_value _ Hseen') as Ht.
      unfold url_item; unfold bucket_value in Ht |- *.
      rewrite current_bucket_snoc in Ht |- *; cbn [fst snd hd_error] in Ht |- *.
      destruct (endswith_any name ["file"; "path"]);
        destruct (contains "bucket" name);
        cbn [first_value bind andb negb Nat.eqb List.length];
        try rewrite Ht; try (destruct (current_bucket seen)); cbn [bind first_value];
        rewrite ?app_nil_r; reflexivity. }
    cbn [url_loop spec_scan]; rewrite Hstep; cbn [bind].
    rewrite IH by assumption.
    now rewrite <- !app_assoc.
Qed.

(** A reference of the scan pairs a file or path parameter with a bucket
    parameter that stands at or before it. *)
Lemma spec_scan_bucket_before (rest seen : Url.query_dict) (bucket v : pyval) :
  In (bucket, v) (spec_scan seen rest) ->
  exists pre name values post bname bvalues b f,
    rest = pre ++ (name, values) :: post /\
    endswith_any name ["file"; "path"] = true /\
    hd_error values = Some f /\ v = PStr f /\
    In (bname, bvalues) (seen ++ pre ++ [(name, values)]) /\
    contains "bucket" bname = true /\
    hd_error bvalues = Some b /\ bucket = PStr b /\
    current_bucket (seen ++ pre ++ [(name, values)]) = Some b.
Proof.
  revert seen; induction rest as [|[name values] rest IH]; intros seen;
    cbn [spec_scan]; [intros []|].
  rewrite in_app_iff; intros [Hhere | Hlater].
  - destruct values as [|f vs]; [destruct Hhere|].
    destruct (current_bucket (seen ++ [(name, f :: vs)])) as [b|] eqn:Hb; [|destruct Hhere].
    destruct (endswith_any name _) eqn:Hend; [|destruct Hhere].
    destruct Hhere as [Heq | []]; inversion Heq; subst.
    destruct (current_bucket_seen _ _ Hb) as (bname & bvalues & Hin & Hname & Hhd).
    exists [], name, (f :: vs), rest, bname, bvalues, b, f; simpl; auto 10.
  - destruct (IH _ Hlater)
      as (pre & n & vals & post & bname & bvalues & b & f & -> & Hend & Hf & Hv & Hin & Hb & Hhd & Hbk & Hcur).
    exists ((name, values) :: pre), n, vals, post, bname, bvalues, b, f.
    rewrite <- app_assoc in Hin, Hcur; simpl in *; auto 10.
Qed.

(** C4.  When the raw text is not JSON, the parameters of its query are
    scanned once, left to right, with a current bucket that every
    parameter whose name contains bucket sets to its first value; the
    references returned are those of the scan, and each of them pairs a
    parameter ending in file or path with the bucket of a bucket parameter
    standing at or before it.  With the file parameter first the result is
    empty; with the bucket parameter first it is the one reference
    (b1, a.json). *)
Theorem url_scan_left_to_right :
  (forall raw query,
      Json.loads raw = None -> Url.urlparse_query raw = Ok query ->
      extract_paths_from_raw (PStr raw) = Ok (spec_scan [] (Url.parse_qs query)))
  /\ (forall query bucket v,
      In (bucket, v) (spec_scan [] (Url.parse_qs query)) ->
      exists pre name values post bname bvalues b f,
        Url.parse_qs query = pre ++ (name, values) :: post /\
        endswith_any name ["file"; "path"] = true /\
        hd_error values = Some f /\ v = PStr f /\
        In (bname, bvalues) (pre ++ [(name, values)]) /\
        contains "bucket" bname = true /\
        hd_error bvalues = Some b /\ bucket = PStr b /\
        current_bucket (pre ++ [(name, values)]) = Some b)
  /\ extract_paths_from_raw (PStr "http://x/y?input_file=a.json&input_bucket=b1") = Ok []
  /\ extract_paths_from_raw (PStr "http://x/y?input_bucket=b1&input_file=a.json")
       = Ok [(PStr "b1", PStr "a.json")].
Proof.
  repeat split; try reflexivity.
  - intros raw query Hjson Hurl.
    unfold extract_paths_from_raw, url_paths; rewrite Hjson, Hurl; cbn [bind].
    change (PNone, @nil reference) with (bucket_value [], @nil reference).
    rewrite url_loop_spec; [reflexivity | constructor | apply parse_qs_wf].
  - intros query bucket v Hin.
    exact (spec_scan_bucket_before _ [] _ _ Hin).
Qed.

Lemma url_scan_left_to_right_witness :
  Json.loads "http://x/y?a_bucket=b1&b_path=p&a_bucket=b2" = None
  /\ Url.urlparse_query "http://x/y?a_bucket=b1&b_path=p&a_bucket=b2"
       = Ok "a_bucket=b1&b_path=p&a_bucket=b2"
  /\ extract_paths_from_raw (PStr "http://x/y?a_bucket=b1&b_path=p&a_bucket=b2")
       = Ok [(PStr "b1", PStr "p")].
Proof.
  split; [reflexivity|]. split; [reflexivity|].
  exact (proj1 url_scan_left_to_right
           "http://x/y?a_bucket=b1&b_path=p&a_bucket=b2"
           "a_bucket=b1&b_path=p&a_bucket=b2" eq_refl eq_refl).
Defined.

(** ** The checks on each reference *)

Section CheckerProperties.

Variable world : Type.
Variable read_text : string -> result string.
Variable head_object : world -> pyval -> pyval -> result unit * world.
Variable get_object : world -> pyval -> pyval -> result string * world.
Variable read_parquet : string -> result dataframe.
Variable py_repr : pyval -> string.
Variable json_loads_bytes : string -> result pyval.
Variable json_error_text : string -> string.

Ltac unfold_loop := unfold run_checks.
Ltac unfold_reference := unfold check_reference, s3_head, check_content, s3_get.
Ltac unfold_service := unfold check_service.
Ltac unfold_item := unfold check_item, collect_paths, extend_from, raw_field.

Local Abbreviation store := (store world).
Local Abbreviation path_of := (s3_path py_repr).
Local Abbreviation check_reference :=
  (check_reference world head_object get_object read_parquet py_repr json_loads_bytes).
Local Abbreviation run_checks :=
  (run_checks world head_object get_object read_parquet py_repr json_loads_bytes).
Local Abbreviation check_item :=
  (check_item world head_object get_object read_parquet py_repr json_loads_bytes).
Local Abbreviation check_service :=
  (check_service world read_text head_object get_object read_parquet py_repr
     json_loads_bytes json_error_text).
Local Abbreviation content_read_fails :=
  (content_read_fails world get_object read_parquet json_loads_bytes).
Local Abbreviation all_probes_fail := (all_probes_fail world head_object).

Lemma run_checks_app (st : checks * store) (before after : list reference) :
  run_checks st (before ++ after) = run_checks (run_checks st before) after.
Proof.
  unfold_loop; apply fold_left_app.
Qed.

Lemma run_checks_one (st : checks * store) (ref : reference) :
  run_checks st [ref] = check_reference st ref.
Proof.
  reflexivity.
Qed.

(** One more reference after [before], and then the rest. *)
Lemma run_checks_next (st st1 : checks * store) (before after : list reference)
    (ref : reference) :
  run_checks st before = st1 ->
  run_checks st (before ++ [ref]) = check_reference st1 ref /\
  run_checks st (before ++ ref :: after)
    = run_checks (check_reference st1 ref) after.
Proof.
  intros <-; split.
  - now rewrite run_checks_app, run_checks_one.
  - now rewrite run_checks_app.
Qed.

Lemma probe_failure_step (acc : checks) (s : store) (bucket key : pyval)
    (e : exn) (w' : world) :
  head_object (st_world _ s) bucket key = (Raise e, w') ->
  check_reference (acc, s) (bucket, key)
    = (access_failure acc (path_of bucket key) "unable to access the file",
       mk_store _ w' (st_calls _ s ++ [HeadObject bucket key])).
Proof.
  intros Hprobe; unfold_reference.
  now rewrite Hprobe.
Qed.

(** C5.  When the probe of a reference fails, the iteration for that
    reference appends it to the accessibility failures with the reason
    unable to access the file, leaves the schema-field failures, the
    emptiness failures and the checked count as they were, makes no
    other call to the store, and the loop goes on with the next
    reference. *)
Theorem probe_failure_excluded (st0 : checks * store) (before : list reference)
    (bucket key : pyval) (acc1 : checks) (s1 : store) (e : exn) (w' : world)
    (Hbefore : run_checks st0 before = (acc1, s1))
    (Hprobe : head_object (st_world _ s1) bucket key = (Raise e, w')) :
  exists acc2 s2,
    run_checks st0 (before ++ [(bucket, key)]) = (acc2, s2) /\
    file_access_failed acc2
      = file_access_failed acc1 ++ [(path_of bucket key, "unable to access the file")] /\
    room_category_failed acc2 = room_category_failed acc1 /\
    empty_file_failed acc2 = empty_file_failed acc1 /\
    files_checked acc2 = files_checked acc1 /\
    st_calls _ s2 = st_calls _ s1 ++ [HeadObject bucket key] /\
    forall after,
      run_checks st0 (before ++ (bucket, key) :: after) = run_checks (acc2, s2) after.
Proof.
  pose proof (probe_failure_step acc1 s1 bucket key e w' Hprobe) as Hstep.
  eexists _, _; split.
  - rewrite (proj1 (run_checks_next _ _ _ [] _ Hbefore)); exact Hstep.
  - repeat split; intros after.
    rewrite (proj2 (run_checks_next _ _ _ after _ Hbefore)); now rewrite Hstep.
Qed.

Lemma content_failure_step (acc : checks) (s : store) (bucket : pyval) (k : string)
    (w1 : world) (e : exn) :
  head_object (st_world _ s) bucket (PStr k) = (Ok tt, w1) ->
  content_read_fails w1 bucket k e ->
  check_reference (acc, s) (bucket, PStr k)
    = (access_failure acc (path_of bucket (PStr k)) (exn_msg e),
       mk_store _ (snd (get_object w1 bucket (PStr k)))
         (st_calls _ s ++ [HeadObject bucket (PStr k); GetObject bucket (PStr k)])).
Proof.
  intros Hprobe Hfail; unfold content_read_fails in Hfail.
  unfold_reference.
  rewrite Hprobe; cbn [st_world st_calls].
  destruct (get_object w1 bucket (PStr k)) as [r w2] eqn:Hget; cbn [fst snd] in *.
  rewrite <- app_assoc; cbn [app].
  destruct Hfail as [(Hpq & Hread) | (Hpq & Hjs & Hread)]; rewrite Hpq; [|rewrite Hjs].
  - destruct Hread as [-> | (data & -> & Hdec)]; cbn [bind]; [reflexivity|].
    now rewrite Hdec.
  - destruct Hread as [-> | (data & -> & Hdec)]; cbn [bind]; [reflexivity|].
    now rewrite Hdec.
Qed.

(** C7.  When the probe of a [.parquet] or [.json] reference succeeds and
    its content cannot be fetched or decoded, the iteration appends the
    reference to the accessibility failures with the message of the
    raised error as the reason (not the fixed reason of the probe step),
    leaves the checked count and the two other lists as they were, and
    the loop goes on with the next reference. *)
Theorem content_failure_recorded (st0 : checks * store) (before : list reference)
    (bucket : pyval) (k : string) (acc1 : checks) (s1 : store) (w1 : world) (e : exn)
    (Hbefore : run_checks st0 before = (acc1, s1))
    (Hprobe : head_object (st_world _ s1) bucket (PStr k) = (Ok tt, w1))
    (Hfail : content_read_fails w1 bucket k e) :
  exists acc2 s2,
    run_checks st0 (before ++ [(bucket, PStr k)]) = (acc2, s2) /\
    file_access_failed acc2
      = file_access_failed acc1 ++ [(path_of bucket (PStr k), exn_msg e)] /\
    room_category_failed acc2 = room_category_failed acc1 /\
    empty_file_failed acc2 = empty_file_failed acc1 /\
    files_checked acc2 = files_checked acc1 /\
    st_calls _ s2
      = st_calls _ s1 ++ [HeadObject bucket (PStr k); GetObject bucket (PStr k)] /\
    forall after,
      run_checks st0 (before ++ (bucket, PStr k) :: after) = run_checks (acc2, s2) after.
Proof.
  pose proof (content_failure_step acc1 s1 bucket k w1 e Hprobe Hfail) as Hstep.
  eexists _, _; split.
  - rewrite (proj1 (run_checks_next _ _ _ [] _ Hbefore)); exact Hstep.
  - repeat split; intros after.
    rewrite (proj2 (run_checks_next _ _ _ after _ Hbefore)); now rewrite Hstep.
Qed.

Lemma json_content_step (acc : checks) (s : store) (bucket : pyval) (k : string)
    (w1 w2 : world) (data : string) (content : pyval) :
  head_object (st_world _ s) bucket (PStr k) = (Ok tt, w1) ->
  endswith k ".parquet" = false -> endswith k ".json" = true ->
  get_object w1 bucket (PStr k) = (Ok data, w2) ->
  json_loads_bytes data = Ok content ->
  check_reference (acc, s) (bucket, PStr k)
    = (json_checks acc (path_of bucket (PStr k)) content,
       mk_store _ w2
         (st_calls _ s ++ [HeadObject bucket (PStr k); GetObject bucket (PStr k)])).
Proof.
  intros Hprobe Hpq Hjs Hget Hdec.
  unfold_reference.
  rewrite Hprobe; cbn [st_world st_calls]; rewrite Hpq, Hjs, Hget; cbn [bind].
  rewrite Hdec; cbn [bind].
  now rewrite <- app_assoc.
Qed.

(** C8.  For an accessible [.json] reference whose bytes [json.loads]
    decodes and parses, the reference counts as checked; it is appended to the schema failures
    when the content is an object without a top-level room_category key,
    and the schema failures stay as they were when the content is an
    object with that key or is not an object at all. *)
Theorem json_schema_check (st0 : checks * store) (before : list reference)
    (bucket : pyval) (k : string) (acc1 : checks) (s1 : store) (w1 w2 : world)
    (data : string) (content : pyval)
    (Hbefore : run_checks st0 before = (acc1, s1))
    (Hprobe : head_object (st_world _ s1) bucket (PStr k) = (Ok tt, w1))
    (Hpq : endswith k ".parquet" = false)
    (Hjs : endswith k ".json" = true)
    (Hget : get_object w1 bucket (PStr k) = (Ok data, w2))
    (Hdec : json_loads_bytes data = Ok content) :
  exists acc2 s2,
    run_checks st0 (before ++ [(bucket, PStr k)]) = (acc2, s2) /\
    files_checked acc2 = files_checked acc1 + 1 /\
    file_access_failed acc2 = file_access_failed acc1 /\
    empty_file_failed acc2 = empty_file_failed acc1 /\
    (forall d, content = PDict d -> dict_lookup d "room_category" = None ->
       room_category_failed acc2
         = room_category_failed acc1 ++ [path_of bucket (PStr k)]) /\
    (forall d v, content = PDict d -> dict_lookup d "room_category" = Some v ->
       room_category_failed acc2 = room_category_failed acc1) /\
    ((forall d, content <> PDict d) ->
       room_category_failed acc2 = room_category_failed acc1).
Proof.
  pose proof (json_content_step acc1 s1 bucket k w1 w2 data content
                Hprobe Hpq Hjs Hget Hdec) as Hstep.
  eexists _, _; split.
  - rewrite (proj1 (run_checks_next _ _ _ [] _ Hbefore)); exact Hstep.
  - unfold json_checks; repeat split.
    + destruct content as [| | | | | |d]; try reflexivity.
      destruct (dict_lookup d "room_category"); reflexivity.
    + destruct content as [| | | | | |d]; try reflexivity.
      destruct (dict_lookup d "room_category"); reflexivity.
    + destruct content as [| | | | | |d]; try reflexivity.
      destruct (dict_lookup d "room_category"); reflexivity.
    + intros d -> ->; reflexivity.
    + intros d v -> ->; reflexivity.
    + intros Hno; destruct content as [| | | | | |d]; try reflexivity.
      now destruct (Hno d).
Qed.


Local Abbreviation unhandled := (unhandled read_text json_error_text).
Local Abbreviation load_collection := (load_collection read_text json_error_text).

Lemma check_reference_not_counted (acc : checks) (s : store) (bucket key : pyval) :
  (exists e, fst (head_object (st_world _ s) bucket key) = Raise e)
  \/ checkable_key key = false ->
  files_checked (fst (check_reference (acc, s) (bucket, key))) = files_checked acc.
Proof.
  intros Hwhy; unfold_reference.
  destruct (head_object (st_world _ s) bucket key) as [[[]|e] w1]; [|reflexivity].
  destruct Hwhy as [(e & He) | Hkey]; [discriminate He|].
  destruct key as [| | | | k | |]; try reflexivity.
  simpl in Hkey; apply orb_false_iff in Hkey as [-> ->]; reflexivity.
Qed.

Lemma run_checks_not_counted (paths : list reference) (st : checks * store) :
  (forall bucket key, In (bucket, key) paths ->
     (forall w, exists e, fst (head_object w bucket key) = Raise e)
     \/ checkable_key key = false) ->
  files_checked (fst (run_checks st paths)) = files_checked (fst st).
Proof.
  revert st; induction paths as [|[bucket key] paths IH]; intros [acc s] Hall;
    [reflexivity|].
  change (run_checks (acc, s) ((bucket, key) :: paths))
    with (run_checks (check_reference (acc, s) (bucket, key)) paths).
  rewrite IH by (intros b k Hin; apply Hall; now right).
  apply check_reference_not_counted.
  destruct (Hall bucket key (or_introl eq_refl)) as [Hprobe | Hkey]; auto.
Qed.


(** ** Finding the entry *)

Lemma find_service_skip (service_name : string) (before rest : list pyval) :
  forallb (other_name service_name) before = true ->
  find_service (before ++ rest) service_name = find_service rest service_name.
Proof.
  induction before as [|item before IH]; [reflexivity|]; simpl.
  intros Hb; apply andb_true_iff in Hb as [Hitem Hb].
  unfold other_name in Hitem.
  destruct (getitem item "name") as [name|]; [|discriminate]; cbn [bind].
  destruct (eq_str name service_name); [discriminate | auto].
Qed.

Lemma find_service_first (service_name : string) (item : pyval) (after : list pyval) :
  named service_name item = true ->
  find_service (item :: after) service_name = Ok (Some item).
Proof.
  unfold named; simpl.
  destruct (getitem item "name") as [name|]; [|discriminate]; cbn [bind].
  now intros ->.
Qed.

Lemma named_truthy (service_name : string) (item : pyval) :
  named service_name item = true -> truthy item = true.
Proof.
  unfold named, getitem.
  destruct item as [| | | | | |d]; try discriminate.
  destruct d; [discriminate | reflexivity].
Qed.


Lemma getitem_missing (v : pyval) (field : string) :
  has_field v field = false ->
  exists e, getitem v field = Raise e /\
            (exn_class e = KeyError \/ exn_class e = TypeError).
Proof.
  unfold has_field, getitem; destruct v as [| | | | | |d]; intros H;
    try (eexists; split; [reflexivity | simpl; auto]).
  destruct (dict_lookup d field); [discriminate|].
  eexists; split; [reflexivity | simpl; auto].
Qed.

(** C10.  Amended: an exception leaves [check_service], with nothing
    printed and no call to the store, when the collection cannot be
    loaded, when it has no item field, when an entry reached by the search
    (every entry up to the first one with the requested name) has no name
    field, or when the entry found has no request field; once the
    collection is loaded the exception is a KeyError or a TypeError. *)
Theorem unhandled_input_raises (w : world) (json_path service_name : string)
    (Hbad : unhandled json_path service_name) :
  exists e,
    check_service w json_path service_name = mk_run _ (Raise e) [] (mk_store _ w []) /\
    (forall data, load_collection json_path = Ok data ->
       exn_class e = KeyError \/ exn_class e = TypeError).
Proof.
  unfold_service.
  destruct Hbad as [e Hload | data Hload Hitem
                    | data before after entry Hload Hitems Hbefore Hname
                    | data before after entry Hload Hitems Hbefore Hnamed Hreq].
  - exists e; rewrite Hload; split; [reflexivity|]. intros data Hd.
    congruence.
  - destruct (getitem_missing _ _ Hitem) as (e & He & Hclass).
    exists e; rewrite Hload, He; split; [reflexivity | auto].
  - destruct (getitem_missing _ _ Hname) as (e & He & Hclass).
    exists e; rewrite Hload, Hitems; cbn [bind iterate].
    rewrite (find_service_skip _ _ _ Hbefore); cbn [find_service].
    rewrite He; split; [reflexivity | auto].
  - destruct (getitem_missing _ _ Hreq) as (e & He & Hclass).
    exists e; rewrite Hload, Hitems; cbn [bind iterate].
    rewrite (find_service_skip _ _ _ Hbefore), (find_service_first _ _ _ Hnamed).
    rewrite (named_truthy _ _ Hnamed); cbn [negb].
    unfold_item.
    rewrite He; split; [reflexivity | auto].
Qed.

End CheckerProperties.

(** ** The statements above on the in-memory instance *)

Lemma probe_failure_excluded_witness :
  exists acc2 s2,
    Demo.run_paths (Demo.start []) [(PStr "b1", PStr "a.json")] = (acc2, s2) /\
    file_access_failed acc2 = [("s3://b1/a.json", "unable to access the file")] /\
    room_category_failed acc2 = [] /\
    empty_file_failed acc2 = [] /\
    files_checked acc2 = 0 /\
    st_calls _ s2 = [HeadObject (PStr "b1") (PStr "a.json")] /\
    forall after,
      Demo.run_paths (Demo.start []) ((PStr "b1", PStr "a.json") :: after)
        = Demo.run_paths (acc2, s2) after.
Proof.
  exact (probe_failure_excluded Demo.world Demo.head_object Demo.get_object
           Demo.read_parquet Demo.py_repr Demo.json_loads_bytes
           (Demo.start []) [] (PStr "b1") (PStr "a.json")
           no_checks (mk_store _ [] []) (Demo.not_found_error "HeadObject") []
           eq_refl eq_refl).
Defined.


Lemma content_failure_recorded_witness :
  Demo.json_loads_bytes Demo.bad_utf8
    = Raise (mk_exn UnicodeDecodeError
               "'utf-8' codec can't decode bytes: invalid or truncated sequence") /\
  exists acc2 s2,
    Demo.run_paths (Demo.start [("b1", "a.json", Demo.bad_utf8)])
        [(PStr "b1", PStr "a.json")] = (acc2, s2) /\
    file_access_failed acc2
      = [("s3://b1/a.json",
          "'utf-8' codec can't decode bytes: invalid or truncated sequence")] /\
    room_category_failed acc2 = [] /\
    empty_file_failed acc2 = [] /\
    files_checked acc2 = 0 /\
    st_calls _ s2
      = [HeadObject (PStr "b1") (PStr "a.json"); GetObject (PStr "b1") (PStr "a.json")] /\
    forall after,
      Demo.run_paths (Demo.start [("b1", "a.json", Demo.bad_utf8)])
          ((PStr "b1", PStr "a.json") :: after)
        = Demo.run_paths (acc2, s2) after.
Proof.
  split; [reflexivity|].
  exact (content_failure_recorded Demo.world Demo.head_object Demo.get_object
           Demo.read_parquet Demo.py_repr Demo.json_loads_bytes
           (Demo.start [("b1", "a.json", Demo.bad_utf8)]) [] (PStr "b1") "a.json"
           no_checks (mk_store _ [("b1", "a.json", Demo.bad_utf8)] [])
           [("b1", "a.json", Demo.bad_utf8)]
           (mk_exn UnicodeDecodeError
              "'utf-8' codec can't decode bytes: invalid or truncated sequence")
           eq_refl eq_refl
           (or_intror (conj eq_refl (conj eq_refl
              (or_intror (ex_intro _ Demo.bad_utf8 (conj eq_refl eq_refl))))))).
Defined.

Lemma json_schema_check_witness :
  Demo.json_loads_bytes Demo.bom_object = Ok (PDict []) /\
  exists acc2 s2,
    Demo.run_paths (Demo.start [("b1", "a.json", Demo.bom_object)])
        [(PStr "b1", PStr "a.json")] = (acc2, s2) /\
    files_checked acc2 = 1 /\
    file_access_failed acc2 = [] /\
    room_category_failed acc2 = ["s3://b1/a.json"].
Proof.
  split; [reflexivity|].
  destruct (json_schema_check Demo.world Demo.head_object Demo.get_object
              Demo.read_parquet Demo.py_repr Demo.json_loads_bytes
              (Demo.start [("b1", "a.json", Demo.bom_object)]) []
              (PStr "b1") "a.json"
              no_checks (mk_store _ [("b1", "a.json", Demo.bom_object)] [])
              [("b1", "a.json", Demo.bom_object)] [("b1", "a.json", Demo.bom_object)]
              Demo.bom_object (PDict [])
              eq_refl eq_refl eq_refl eq_refl eq_refl eq_refl)
    as (acc2 & s2 & Hrun & Hcount & Hfa & _ & Hfail & _).
  exists acc2, s2; split; [exact Hrun|]; split; [exact Hcount|].
  split; [exact Hfa|]. exact (Hfail _ eq_refl eq_refl).
Defined.


(** C10, as stated, fails: the last entry of [collection.json] has neither
    a name nor a request, and checking the entry rooms, which stands before
    it, ends with a report and no exception.  A collection that cannot be
    parsed or opened is not handled either: the exception leaves
    [check_service]. *)
Lemma incomplete_entry_after_match :
  ~ raises_on_any_incomplete_entry
  /\ run_result _ (Demo.check [] "collection.json" "rooms") = Ok tt
  /\ run_result _ (Demo.check [] "broken.json" "rooms")
       = Raise (mk_exn JSONDecodeError "Expecting value: line 1 column 1 (char 0)")
  /\ run_result _ (Demo.check [] "missing.json" "rooms")
       = Raise (mk_exn OSError "[Errno 2] No such file or directory").
Proof.
  split; [|repeat split; reflexivity].
  intros Hclaim.
  destruct (Hclaim Demo.world Demo.read_text Demo.head_object Demo.get_object
              Demo.read_parquet Demo.py_repr Demo.json_loads_bytes
              Demo.json_error_text [] "collection.json" "rooms"
              (PDict [("item",
                       PList [Demo.other_entry; Demo.rooms_entry; Demo.nameless_entry])])
              [Demo.other_entry; Demo.rooms_entry; Demo.nameless_entry]
              Demo.nameless_entry
              eq_refl eq_refl (or_intror (or_intror (or_introl eq_refl)))
              (or_introl eq_refl)) as [e He].
  discriminate He.
Qed.

Lemma unhandled_input_raises_witness :
  exists e,
    Demo.check [] "collection.json" "nope" = mk_run _ (Raise e) [] (mk_store _ [] []) /\
    (forall data,
       load_collection Demo.read_text Demo.json_error_text "collection.json" = Ok data ->
       exn_class e = KeyError \/ exn_class e = TypeError).
Proof.
  exact (unhandled_input_raises Demo.world Demo.read_text Demo.head_object
           Demo.get_object Demo.read_parquet Demo.py_repr Demo.json_loads_bytes
           Demo.json_error_text [] "collection.json" "nope"
           (no_name Demo.read_text Demo.json_error_text "collection.json" "nope"
              (PDict [("item",
                       PList [Demo.other_entry; Demo.rooms_entry; Demo.nameless_entry])])
              [Demo.other_entry; Demo.rooms_entry] [] Demo.nameless_entry
              eq_refl eq_refl eq_refl eq_refl)).
Defined.

(** * Further properties of the script *)

(** ** Which bucket a member of a JSON body gets *)

Lemma replace_absent (old new s : string) :
  contains old s = false -> replace s old new = s.
Proof.
  unfold replace; induction s as [|c s IH]; [reflexivity|].
  cbn [contains replace_from]; intros H; apply orb_false_iff in H as [Hp Hc].
  rewrite Hp, (IH Hc); reflexivity.
Qed.

Lemma endswith_app (a b : string) : endswith (a ++ b) b = true.
Proof.
  induction a as [|c a IH]; cbn [append].
  - destruct b; cbn [endswith]; now rewrite String.eqb_refl.
  - cbn [endswith]; rewrite IH; apply orb_true_r.
Qed.

(** Before a final [_key], a text without [_key] holds no other
    occurrence of it. *)
Lemma prefix_key_border (c : ascii) (base : string) :
  String.prefix "_key" (String c base) = false ->
  String.prefix "_key" (String c base ++ "_key") = false.
Proof.
  cbn [append String.prefix].
  destruct (ascii_dec "_" c) as [<-|]; [|reflexivity].
  destruct base as [|c2 base]; [reflexivity|]; cbn [append String.prefix].
  destruct (ascii_dec "k" c2) as [<-|]; [|reflexivity].
  destruct base as [|c3 base]; [reflexivity|]; cbn [append String.prefix].
  destruct (ascii_dec "e" c3) as [<-|]; [|reflexivity].
  destruct base as [|c4 base]; [reflexivity|]; cbn [append String.prefix].
  destruct (ascii_dec "y" c4) as [<-|]; [|reflexivity].
  intros Hp; destruct base; discriminate Hp.
Qed.

Lemma replace_final_key (base : string) :
  contains "_key" base = false ->
  replace (base ++ "_key") "_key" "_bucket" = (base ++ "_bucket")%string.
Proof.
  unfold replace; induction base as [|c base IH]; [reflexivity|].
  cbn [contains]; intros H; apply orb_false_iff in H as [Hp Hc].
  change (String c base ++ "_key")%string with (String c (base ++ "_key")).
  cbn [replace_from].
  change (String c (base ++ "_key")) with (String c base ++ "_key")%string.
  rewrite (prefix_key_border _ _ Hp), (IH Hc); reflexivity.
Qed.

Lemma dict_lookup_In (d : dict) (k : string) (v : pyval) :
  dict_lookup d k = Some v -> In (k, v) d.
Proof.
  induction d as [|[k' v'] d IH]; [discriminate|]; cbn [dict_lookup].
  destruct (String.eqb_spec k' k) as [->|]; intros H.
  - injection H as ->; now left.
  - right; auto.
Qed.

Lemma endswith_any_widen (key : string) :
  endswith_any key ["_file"; "_path"] = true ->
  endswith_any key ["_key"; "_file"; "_path"] = true.
Proof.
  unfold endswith_any; cbn [existsb]; intros ->; apply orb_true_r.
Qed.

(** X1.  In a JSON body, a member whose value is non-empty is paired with
    its own value as the bucket when its key ends in [_file] or [_path]
    and holds no [_key], whatever companion bucket member the body has;
    and also when its key ends in [_key], holds no [_file], and the body
    has no member under the key with [_key] replaced by [_bucket]. *)
Theorem own_value_as_bucket (raw : string) (d : dict) (key : string) (val : pyval)
    (Hparse : Json.loads raw = Some (PDict d))
    (Hmember : dict_lookup d key = Some val)
    (Hval : truthy val = true)
    (Hkey : (endswith_any key ["_file"; "_path"] = true /\ contains "_key" key = false)
            \/ (endswith key "_key" = true /\ contains "_file" key = false /\
                dict_lookup d (replace key "_key" "_bucket") = None)) :
  exists paths,
    extract_paths_from_raw (PStr raw) = Ok paths /\ In (val, val) paths.
Proof.
  exists (flat_map (member_refs d) d); split.
  - unfold extract_paths_from_raw; rewrite Hparse; cbn [json_paths].
    now rewrite json_loop_spec.
  - apply in_flat_map; exists (key, val); split; [now apply dict_lookup_In|].
    unfold member_refs, bucket_chain; cbn [first_present].
    destruct Hkey as [(Hend & Hno) | (Hend & Hno & Hcompanion)].
    + rewrite (endswith_any_widen _ Hend), Hval, (replace_absent _ _ _ Hno), Hmember.
      cbn [andb]; rewrite Hval; now left.
    + assert (Hany : endswith_any key ["_key"; "_file"; "_path"] = true)
        by (unfold endswith_any; cbn [existsb]; now rewrite Hend).
      rewrite Hany, Hval, Hcompanion, (replace_absent _ _ _ Hno), Hmember.
      cbn [andb]; rewrite Hval; now left.
Qed.

Lemma own_value_as_bucket_witness :
  exists paths,
    extract_paths_from_raw (PStr (dq "{'in_file': 'a.json', 'in_bucket': 'b1'}"))
      = Ok paths /\
    In (PStr "a.json", PStr "a.json") paths.
Proof.
  exact (own_value_as_bucket
           (dq "{'in_file': 'a.json', 'in_bucket': 'b1'}")
           [("in_file", PStr "a.json"); ("in_bucket", PStr "b1")]
           "in_file" (PStr "a.json") eq_refl eq_refl eq_refl
           (or_introl (conj eq_refl eq_refl))).
Defined.

(** X2.  In a JSON body, a member [base_key] with a non-empty value, where
    [base] holds no [_key], is paired with the value of the member
    [base_bucket] when that value is non-empty. *)
Theorem companion_bucket_of_key (raw : string) (d : dict) (base : string)
    (val bucket : pyval)
    (Hparse : Json.loads raw = Some (PDict d))
    (Hbase : contains "_key" base = false)
    (Hmember : dict_lookup d (base ++ "_key") = Some val)
    (Hval : truthy val = true)
    (Hcompanion : dict_lookup d (base ++ "_bucket") = Some bucket)
    (Hbucket : truthy bucket = true) :
  exists paths,
    extract_paths_from_raw (PStr raw) = Ok paths /\ In (bucket, val) paths.
Proof.
  exists (flat_map (member_refs d) d); split.
  - unfold extract_paths_from_raw; rewrite Hparse; cbn [json_paths].
    now rewrite json_loop_spec.
  - apply in_flat_map; exists ((base ++ "_key")%string, val).
    split; [now apply dict_lookup_In|].
    unfold member_refs, bucket_chain; cbn [first_present].
    assert (Hany : endswith_any (base ++ "_key") ["_key"; "_file"; "_path"] = true)
      by (unfold endswith_any; cbn [existsb]; now rewrite endswith_app).
    rewrite Hany, Hval, (replace_final_key _ Hbase), Hcompanion.
    cbn [andb]; rewrite Hbucket; now left.
Qed.

Lemma companion_bucket_of_key_witness :
  exists paths,
    extract_paths_from_raw (PStr (dq "{'in_bucket': 'b1', 'in_key': 'a.json'}"))
      = Ok paths /\
    In (PStr "b1", PStr "a.json") paths.
Proof.
  exact (companion_bucket_of_key
           (dq "{'in_bucket': 'b1', 'in_key': 'a.json'}")
           [("in_bucket", PStr "b1"); ("in_key", PStr "a.json")]
           "in" (PStr "a.json") (PStr "b1")
           eq_refl eq_refl eq_refl eq_refl eq_refl eq_refl).
Defined.

(** ** What the extractor returns and when it raises *)

Lemma wf_first_value (ps : Url.query_dict) (name : string) (values : list string)
    (v : string) :
  wf_params ps -> In (name, values) ps -> hd_error values = Some v -> v <> "".
Proof.
  unfold wf_params; rewrite Forall_forall; intros Hwf Hin Hhd.
  destruct (Hwf _ Hin) as (v' & vs & Heq & Hne); cbn [snd] in Heq; subst values.
  cbn [hd_error] in Hhd; congruence.
Qed.

Lemma truthy_str (s : string) : s <> "" -> truthy (PStr s) = true.
Proof.
  intros Hne; cbn [truthy]; now destruct (String.eqb_spec s "").
Qed.

Lemma member_refs_truthy (d : dict) (item : string * pyval) (ref : reference) :
  In ref (member_refs d item) -> truthy (fst ref) = true /\ truthy (snd ref) = true.
Proof.
  destruct item as [key val]; unfold member_refs.
  destruct (endswith_any key _); cbn [andb]; [|intros []].
  destruct (truthy val) eqn:Hval; [|intros []].
  destruct (first_present d _) as [b|]; [|intros []].
  destruct (truthy b) eqn:Hb; [|intros []].
  intros [<- | []]; auto.
Qed.

Lemma spec_scan_truthy (params : Url.query_dict) (ref : reference) :
  wf_params params -> In ref (spec_scan [] params) ->
  truthy (fst ref) = true /\ truthy (snd ref) = true.
Proof.
  intros Hwf Hin; destruct ref as [bucket v].
  destruct (spec_scan_bucket_before _ _ _ _ Hin)
    as (pre & name & values & post & bname & bvalues & b & f
        & Hparams & _ & Hf & -> & Hb & _ & Hhd & -> & _).
  cbn [app fst snd] in *; split; apply truthy_str.
  - apply (wf_first_value params bname bvalues); [assumption | | assumption].
    rewrite Hparams; rewrite in_app_iff in Hb |- *.
    destruct Hb as [Hb | [Hb | []]]; [now left | right; now left].
  - apply (wf_first_value params name values); [assumption | | assumption].
    rewrite Hparams, in_app_iff; right; now left.
Qed.

Lemma url_paths_scan (raw query : string) :
  Url.urlparse_query raw = Ok query ->
  url_paths raw = Ok (spec_scan [] (Url.parse_qs query)).
Proof.
  intros Hurl; unfold url_paths; rewrite Hurl; cbn [bind].
  change (PNone, @nil reference) with (bucket_value [], @nil reference).
  rewrite url_loop_spec; [reflexivity | constructor | apply parse_qs_wf].
Qed.

(** X3.  Whatever the raw text, neither component of a returned reference
    is empty: in the JSON branch bucket and key are values with a true
    truth value, in the URL branch they are non-empty strings. *)
Theorem references_have_no_empty_part (raw : string) (paths : list reference)
    (Hok : extract_paths_from_raw (PStr raw) = Ok paths) :
  Forall (fun ref => truthy (fst ref) = true /\ truthy (snd ref) = true) paths.
Proof.
  apply Forall_forall; intros ref Hin.
  unfold extract_paths_from_raw in Hok.
  destruct (Json.loads raw) as [body_json|].
  - destruct body_json as [| | | | | |d]; try discriminate Hok.
    cbn [json_paths] in Hok; rewrite json_loop_spec in Hok.
    injection Hok as <-; cbn [app] in Hin.
    apply in_flat_map in Hin as (item & _ & Hin).
    exact (member_refs_truthy _ _ _ Hin).
  - destruct (Url.urlparse_query raw) as [query|e] eqn:Hurl.
    + rewrite (url_paths_scan _ _ Hurl) in Hok; injection Hok as <-.
      exact (spec_scan_truthy _ _ (parse_qs_wf query) Hin).
    + unfold url_paths in Hok; rewrite Hurl in Hok; discriminate Hok.
Qed.

Lemma references_have_no_empty_part_witness :
  Forall (fun ref => truthy (fst ref) = true /\ truthy (snd ref) = true)
    [(PStr "b1", PStr "a.json")].
Proof.
  exact (references_have_no_empty_part
           "http://x/y?input_bucket=b1&input_file=a.json&other_bucket=&n_file="
           [(PStr "b1", PStr "a.json")] eq_refl).
Defined.

(** ** A text without a query *)

Lemma has_char_lstrip (c : ascii) (s : string) :
  Url.has_char c s = false -> Url.has_char c (Url.lstrip_c0_space s) = false.
Proof.
  induction s as [|a s IH]; [reflexivity|]; intros H; cbn [Url.lstrip_c0_space].
  destruct (N_of_ascii a <=? 32)%N; [|exact H].
  apply IH; cbn [Url.has_char] in H; now apply orb_false_iff in H.
Qed.

Lemma has_char_remove_unsafe (c : ascii) (s : string) :
  Url.has_char c s = false -> Url.has_char c (Url.remove_unsafe s) = false.
Proof.
  induction s as [|a s IH]; [reflexivity|]; cbn [Url.has_char]; intros H.
  apply orb_false_iff in H as [Ha Hs]; specialize (IH Hs).
  unfold Url.remove_unsafe; fold Url.remove_unsafe.
  destruct a as [[] [] [] [] [] [] [] []]; try exact IH;
    cbn [Url.has_char]; rewrite Ha, IH; reflexivity.
Qed.

Lemma has_char_split_once (c sep : ascii) (s : string) :
  Url.has_char c s = false ->
  Url.has_char c (fst (Url.split_once sep s)) = false /\
  (forall r, snd (Url.split_once sep s) = Some r -> Url.has_char c r = false).
Proof.
  induction s as [|a s IH]; cbn [Url.has_char Url.split_once].
  - intros _; split; [reflexivity | discriminate].
  - intros H; apply orb_false_iff in H as [Ha Hs].
    destruct (Ascii.eqb a sep).
    + split; [reflexivity|]. cbn [snd]; intros r Hr; injection Hr as <-; exact Hs.
    + destruct (Url.split_once sep s) as [b r0]; cbn [fst snd] in *.
      destruct (IH Hs) as [Hb Hr]; split; [|exact Hr].
      cbn [Url.has_char]; now rewrite Ha, Hb.
Qed.

Lemma has_char_strip_scheme (c : ascii) (url : string) :
  Url.has_char c url = false -> Url.has_char c (Url.strip_scheme url) = false.
Proof.
  intros H; unfold Url.strip_scheme.
  pose proof (has_char_split_once c ":" url H) as [_ Hr].
  destruct (Url.split_once ":" url) as [[|c0 before] [rest|]]; try exact H.
  destruct (Url.is_alpha c0 && Url.all_chars Url.is_scheme_char (String c0 before));
    [now apply Hr | exact H].
Qed.

Lemma has_char_split_netloc (c : ascii) (s : string) :
  Url.has_char c s = false -> Url.has_char c (snd (Url.split_netloc s)) = false.
Proof.
  induction s as [|a s IH]; [reflexivity|]; intros H.
  pose proof H as H'; cbn [Url.has_char] in H'; apply orb_false_iff in H' as [_ Hs].
  specialize (IH Hs).
  unfold Url.split_netloc; fold Url.split_netloc.
  destruct (Url.split_netloc s) as [n r]; cbn [snd] in IH.
  destruct a as [[] [] [] [] [] [] [] []]; cbn [snd]; first [exact H | exact IH].
Qed.

Lemma split_once_absent (c : ascii) (s : string) :
  Url.has_char c s = false -> snd (Url.split_once c s) = None.
Proof.
  induction s as [|a s IH]; [reflexivity|]; cbn [Url.has_char Url.split_once].
  intros H; apply orb_false_iff in H as [Ha Hs]; rewrite Ha.
  specialize (IH Hs); destruct (Url.split_once c s); exact IH.
Qed.

Lemma urlparse_query_absent (raw query : string) :
  Url.has_char "?" raw = false -> Url.urlparse_query raw = Ok query -> query = "".
Proof.
  intros Hno; unfold Url.urlparse_query.
  pose proof (has_char_strip_scheme _ _
                (has_char_remove_unsafe _ _ (has_char_lstrip _ _ Hno))) as Hurl.
  set (url := Url.strip_scheme _) in *; clearbody url.
  assert (Hrest : forall rest, Url.has_char "?" rest = false ->
            (let (u, _) := Url.split_once "#" rest in
             match Url.split_once "?" u with
             | (_, Some q) => Ok q
             | (_, None) => Ok EmptyString
             end) = Ok query -> query = "").
  { intros rest Hr.
    pose proof (has_char_split_once "?" "#" rest Hr) as [Hu _].
    destruct (Url.split_once "#" rest) as [u f]; cbn [fst] in Hu.
    pose proof (split_once_absent "?" u Hu) as Hq.
    destruct (Url.split_once "?" u) as [p q]; cbn [snd] in Hq; subst q.
    congruence. }
  destruct url as [|c1 [|c2 after]].
  - cbn [bind]; now apply Hrest.
  - destruct c1 as [[] [] [] [] [] [] [] []]; cbn [bind]; now apply Hrest.
  - destruct c1 as [[] [] [] [] [] [] [] []]; try (cbn [bind]; now apply Hrest).
    destruct c2 as [[] [] [] [] [] [] [] []]; try (cbn [bind]; now apply Hrest).
    pose proof Hurl as Hafter; cbn [Url.has_char] in Hafter.
    apply orb_false_iff in Hafter as [_ Hafter].
    apply orb_false_iff in Hafter as [_ Hafter].
    pose proof (has_char_split_netloc _ _ Hafter) as Hn.
    destruct (Url.split_netloc after) as [netloc rest]; cbn [snd] in Hn.
    destruct (_ || _); [discriminate|]; cbn [bind]; now apply Hrest.
Qed.

(** X5.  A text that is not JSON, has no question mark and is accepted by
    [urlparse] (the empty text, a URL without query) gives no reference. *)
Theorem no_query_no_reference (raw query : string)
    (Hjson : Json.loads raw = None)
    (Hno : Url.has_char "?" raw = false)
    (Hurl : Url.urlparse_query raw = Ok query) :
  extract_paths_from_raw (PStr raw) = Ok [].
Proof.
  unfold extract_paths_from_raw; rewrite Hjson, (url_paths_scan _ _ Hurl).
  now rewrite (urlparse_query_absent _ _ Hno Hurl).
Qed.

Lemma no_query_no_reference_witness :
  extract_paths_from_raw (PStr "https://host/input_bucket/input_file#a_bucket=b") = Ok []
  /\ extract_paths_from_raw (PStr "") = Ok [].
Proof.
  split.
  - exact (no_query_no_reference "https://host/input_bucket/input_file#a_bucket=b"
             "" eq_refl eq_refl eq_refl).
  - exact (no_query_no_reference "" "" eq_refl eq_refl eq_refl).
Defined.

(** ** Finding the entry, collecting its references *)

(** X6.  The outcome of the search for the entry says everything about
    the entries it went through: no entry found means every entry has
    another name; an entry found is the first with the requested name, all
    before it have other names, and it is not an empty value, so the test
    [not service_item] lets it through; an exception means the entry
    reached after entries with other names has no [name] field. *)
Theorem find_service_outcome (items : list pyval) (service_name : string) :
  match find_service items service_name with
  | Ok None => forallb (other_name service_name) items = true
  | Ok (Some item) =>
      exists before after,
        items = before ++ item :: after /\
        forallb (other_name service_name) before = true /\
        named service_name item = true /\ truthy item = true
  | Raise e =>
      exists before entry after,
        items = before ++ entry :: after /\
        forallb (other_name service_name) before = true /\
        has_field entry "name" = false /\ getitem entry "name" = Raise e
  end.
Proof.
  induction items as [|item items IH]; [reflexivity|].
  cbn [find_service forallb].
  destruct (getitem item "name") as [name|e] eqn:Hname; cbn [bind].
  - destruct (eq_str name service_name) eqn:Heq; cbn [negb andb].
    + assert (Hnamed : named service_name item = true)
        by (unfold named; now rewrite Hname).
      exists [], items; repeat split; [exact Hnamed|].
      unfold named, getitem in Hnamed.
      destruct item as [| | | | | |d]; try discriminate.
      destruct d; [discriminate | reflexivity].
    + assert (Hother : other_name service_name item = true)
        by (unfold other_name; now rewrite Hname, Heq).
      destruct (find_service items service_name) as [[found|]|e].
      * destruct IH as (before & after & -> & Hb & Hn & Ht).
        exists (item :: before), after; split; [reflexivity|]; split; [|auto].
        change (other_name service_name item
                && forallb (other_name service_name) before = true).
        now rewrite Hother, Hb.
      * now rewrite Hother.
      * destruct IH as (before & entry & after & -> & Hb & Hf & He).
        exists (item :: before), entry, after; split; [reflexivity|]; split; [|auto].
        change (other_name service_name item
                && forallb (other_name service_name) before = true).
        now rewrite Hother, Hb.
  - exists [], item, items; repeat split; [|exact Hname].
    unfold getitem, has_field in *.
    destruct item as [| | | | | |d]; try reflexivity.
    destruct (dict_lookup d "name"); [discriminate | reflexivity].
Qed.

(** X7.  When the request of the entry has a raw body and a raw url and
    both extractions succeed, the references of the body come first and
    those of the url after them. *)
Theorem body_references_first (service_item : pyval) (request body url : dict)
    (raw_body raw_url : pyval) (from_body from_url : list reference)
    (Hrequest : getitem service_item "request" = Ok (PDict request))
    (Hbody : dict_lookup request "body" = Some (PDict body))
    (Hraw_body : dict_lookup body "raw" = Some raw_body)
    (Hurl : dict_lookup request "url" = Some (PDict url))
    (Hraw_url : dict_lookup url "raw" = Some raw_url)
    (Hfrom_body : extract_paths_from_raw raw_body = Ok from_body)
    (Hfrom_url : extract_paths_from_raw raw_url = Ok from_url) :
  collect_paths service_item = Ok (from_body ++ from_url).
Proof.
  unfold collect_paths, extend_from, raw_field.
  rewrite Hrequest; cbn [bind contains_str getitem].
  rewrite Hbody; cbn [bind contains_str getitem].
  rewrite Hraw_body; cbn [bind]; rewrite Hfrom_body; cbn [bind app].
  rewrite Hurl; cbn [bind contains_str getitem].
  rewrite Hraw_url; cbn [bind]; now rewrite Hfrom_url.
Qed.

Lemma body_references_first_witness :
  collect_paths Cases.both_entry
    = Ok [(PStr "b1", PStr "a.parquet"); (PStr "b2", PStr "c.csv")].
Proof.
  exact (body_references_first Cases.both_entry
           [("body", PDict [("raw", PStr (dq "{'in_key': 'a.parquet', 'in_bucket': 'b1'}"))]);
            ("url", PDict [("raw", PStr "http://x/y?out_bucket=b2&out_path=c.csv")])]
           [("raw", PStr (dq "{'in_key': 'a.parquet', 'in_bucket': 'b1'}"))]
           [("raw", PStr "http://x/y?out_bucket=b2&out_path=c.csv")]
           (PStr (dq "{'in_key': 'a.parquet', 'in_bucket': 'b1'}"))
           (PStr "http://x/y?out_bucket=b2&out_path=c.csv")
           [(PStr "b1", PStr "a.parquet")] [(PStr "b2", PStr "c.csv")]
           eq_refl eq_refl eq_refl eq_refl eq_refl eq_refl eq_refl).
Defined.

(** ** The report *)

(** X8.  The report is the three Passed lines exactly when no failure of
    any kind was recorded and at least one file was read. *)
Theorem all_passed_exactly_when (acc : checks) :
  print_results acc = all_passed <->
  file_access_failed acc = [] /\ room_category_failed acc = [] /\
  empty_file_failed acc = [] /\ files_checked acc <> 0.
Proof.
  destruct acc as [fa rc ef n]; unfold print_results, access_lines, bucket_lines.
  cbn [file_access_failed room_category_failed empty_file_failed files_checked].
  split.
  - destruct fa; [|cbn; discriminate].
    destruct n; [cbn; discriminate|].
    destruct rc; [|cbn; discriminate].
    destruct ef; [|cbn; discriminate].
    intros _; repeat split; discriminate.
  - intros (-> & -> & -> & Hn); destruct n; [congruence | reflexivity].
Qed.

(** ** The loop over the references *)

Lemma in_columns_In (name : string) (df : dataframe) :
  in_columns name df = true <-> In name (df_columns df).
Proof.
  unfold in_columns; rewrite existsb_exists; split.
  - intros (x & Hin & Heq); apply String.eqb_eq in Heq; now subst.
  - intros Hin; exists name; split; [exact Hin | apply String.eqb_refl].
Qed.

Lemma df_empty_iff (df : dataframe) :
  df_empty df = true <-> df_rows df = 0 \/ df_columns df = [].
Proof.
  unfold df_empty; rewrite orb_true_iff, !Nat.eqb_eq.
  destruct (df_columns df); cbn [List.length]; intuition congruence.
Qed.

Section LoopProperties.

Variable world : Type.
Variable read_text : string -> result string.
Variable head_object : world -> pyval -> pyval -> result unit * world.
Variable get_object : world -> pyval -> pyval -> result string * world.
Variable read_parquet : string -> result dataframe.
Variable py_repr : pyval -> string.
Variable json_loads_bytes : string -> result pyval.
Variable json_error_text : string -> string.

Ltac unfold_reference := unfold check_reference, s3_head, check_content, s3_get.
Ltac unfold_service := unfold check_service.
Ltac unfold_item := unfold check_item.
Ltac unfold_main := unfold main.

Local Abbreviation store := (store world).
Local Abbreviation path_of := (s3_path py_repr).
Local Abbreviation check_reference :=
  (check_reference world head_object get_object read_parquet py_repr json_loads_bytes).
Local Abbreviation run_checks :=
  (run_checks world head_object get_object read_parquet py_repr json_loads_bytes).
Local Abbreviation check_item :=
  (check_item world head_object get_object read_parquet py_repr json_loads_bytes).
Local Abbreviation check_service :=
  (check_service world read_text head_object get_object read_parquet py_repr
     json_loads_bytes json_error_text).
Local Abbreviation main :=
  (main world read_text head_object get_object read_parquet py_repr json_loads_bytes
     json_error_text).
Local Abbreviation load_collection := (load_collection read_text json_error_text).
Local Abbreviation all_probes_fail := (all_probes_fail world head_object).

Lemma parquet_content_step (acc : checks) (s : store) (bucket : pyval) (k : string)
    (w1 w2 : world) (data : string) (df : dataframe) :
  head_object (st_world _ s) bucket (PStr k) = (Ok tt, w1) ->
  endswith k ".parquet" = true ->
  get_object w1 bucket (PStr k) = (Ok data, w2) ->
  read_parquet data = Ok df ->
  check_reference (acc, s) (bucket, PStr k)
    = (parquet_checks acc (path_of bucket (PStr k)) df,
       mk_store _ w2
         (st_calls _ s ++ [HeadObject bucket (PStr k); GetObject bucket (PStr k)])).
Proof.
  intros Hprobe Hpq Hget Hdec; unfold_reference.
  rewrite Hprobe; cbn [st_world st_calls]; rewrite Hpq, Hget; cbn [bind].
  rewrite Hdec; cbn [bind]; now rewrite <- app_assoc.
Qed.

(** X9.  For an accessible [.parquet] reference whose content is fetched
    and decoded, the reference counts as checked and is no accessibility
    failure; it is appended to the emptiness failures exactly when the
    table has no row or no column, and to the schema failures exactly when
    no column is named room_category. *)
Theorem parquet_reference_checked (st0 : checks * store) (before : list reference)
    (bucket : pyval) (k : string) (acc1 : checks) (s1 : store) (w1 w2 : world)
    (data : string) (df : dataframe)
    (Hbefore : run_checks st0 before = (acc1, s1))
    (Hprobe : head_object (st_world _ s1) bucket (PStr k) = (Ok tt, w1))
    (Hpq : endswith k ".parquet" = true)
    (Hget : get_object w1 bucket (PStr k) = (Ok data, w2))
    (Hdec : read_parquet data = Ok df) :
  exists acc2 s2,
    run_checks st0 (before ++ [(bucket, PStr k)]) = (acc2, s2) /\
    files_checked acc2 = files_checked acc1 + 1 /\
    file_access_failed acc2 = file_access_failed acc1 /\
    (df_rows df = 0 \/ df_columns df = [] ->
       empty_file_failed acc2 = empty_file_failed acc1 ++ [path_of bucket (PStr k)]) /\
    (df_rows df <> 0 -> df_columns df <> [] ->
       empty_file_failed acc2 = empty_file_failed acc1) /\
    (~ In "room_category" (df_columns df) ->
       room_category_failed acc2
         = room_category_failed acc1 ++ [path_of bucket (PStr k)]) /\
    (In "room_category" (df_columns df) ->
       room_category_failed acc2 = room_category_failed acc1).
Proof.
  clear read_text json_error_text.
  pose proof (parquet_content_step acc1 s1 bucket k w1 w2 data df
                Hprobe Hpq Hget Hdec) as Hstep.
  eexists _, _; split.
  - rewrite (proj1 (run_checks_next _ _ _ _ _ _ _ _ _ [] _ Hbefore)); exact Hstep.
  - pose proof (df_empty_iff df) as Hempty.
    pose proof (in_columns_In "room_category" df) as Hcol.
    unfold parquet_checks.
    destruct (df_empty df), (in_columns "room_category" df); cbn [negb];
      repeat split; try reflexivity; intros; exfalso;
      intuition congruence.
Qed.

Lemma unchecked_step (acc : checks) (s : store) (bucket : pyval) (k : string)
    (w1 : world) :
  head_object (st_world _ s) bucket (PStr k) = (Ok tt, w1) ->
  endswith k ".parquet" = false -> endswith k ".json" = false ->
  check_reference (acc, s) (bucket, PStr k)
    = (acc, mk_store _ w1 (st_calls _ s ++ [HeadObject bucket (PStr k)])).
Proof.
  intros Hprobe Hpq Hjs; unfold_reference.
  rewrite Hprobe; cbn [st_world st_calls]; now rewrite Hpq, Hjs.
Qed.

(** X10.  An accessible reference whose key ends in neither [.parquet] nor
    [.json] changes nothing: the three lists and the checked count stay as
    they were, the probe is the only call to the store, and the loop goes
    on. *)
Theorem other_extension_only_probed (st0 : checks * store) (before : list reference)
    (bucket : pyval) (k : string) (acc1 : checks) (s1 : store) (w1 : world)
    (Hbefore : run_checks st0 before = (acc1, s1))
    (Hprobe : head_object (st_world _ s1) bucket (PStr k) = (Ok tt, w1))
    (Hpq : endswith k ".parquet" = false)
    (Hjs : endswith k ".json" = false) :
  run_checks st0 (before ++ [(bucket, PStr k)])
    = (acc1, mk_store _ w1 (st_calls _ s1 ++ [HeadObject bucket (PStr k)])) /\
  forall after,
    run_checks st0 (before ++ (bucket, PStr k) :: after)
      = run_checks
          (acc1, mk_store _ w1 (st_calls _ s1 ++ [HeadObject bucket (PStr k)])) after.
Proof.
  pose proof (unchecked_step acc1 s1 bucket k w1 Hprobe Hpq Hjs) as Hstep.
  split.
  - rewrite (proj1 (run_checks_next _ _ _ _ _ _ _ _ _ [] _ Hbefore)); exact Hstep.
  - intros after.
    rewrite (proj2 (run_checks_next _ _ _ _ _ _ _ _ _ after _ Hbefore)).
    now rewrite Hstep.
Qed.

(** What one iteration does to the lists, the counter and the calls. *)
Lemma check_reference_effect (acc : checks) (s : store) (ref : reference) :
  exists fa rc ef n calls,
    file_access_failed (fst (check_reference (acc, s) ref))
      = file_access_failed acc ++ fa /\
    room_category_failed (fst (check_reference (acc, s) ref))
      = room_category_failed acc ++ rc /\
    empty_file_failed (fst (check_reference (acc, s) ref))
      = empty_file_failed acc ++ ef /\
    files_checked (fst (check_reference (acc, s) ref)) = files_checked acc + n /\
    st_calls _ (snd (check_reference (acc, s) ref)) = st_calls _ s ++ calls /\
    List.length fa + n <= 1 /\ List.length rc <= n /\ List.length ef <= n /\
    calls_of_reference ref calls.
Proof.
  destruct ref as [bucket key]; unfold_reference.
  assert (Hfail : forall reason w' more,
            (more = [] \/ (checkable_key key = true /\ more = [GetObject bucket key])) ->
            let r := (access_failure acc (path_of bucket key) reason,
                      mk_store world w' (st_calls _ s ++ HeadObject bucket key :: more)) in
            exists fa rc ef n calls,
              file_access_failed (fst r) = file_access_failed acc ++ fa /\
              room_category_failed (fst r) = room_category_failed acc ++ rc /\
              empty_file_failed (fst r) = empty_file_failed acc ++ ef /\
              files_checked (fst r) = files_checked acc + n /\
              st_calls _ (snd r) = st_calls _ s ++ calls /\
              List.length fa + n <= 1 /\ List.length rc <= n /\ List.length ef <= n /\
              calls_of_reference (bucket, key) calls).
  { intros reason w' more Hmore.
    exists [(path_of bucket key, reason)], [], [], 0, (HeadObject bucket key :: more).
    cbn [fst snd file_access_failed room_category_failed empty_file_failed
           files_checked access_failure st_calls List.length].
    rewrite !app_nil_r, Nat.add_0_r; repeat split; try lia.
    unfold calls_of_reference; cbn [fst snd].
    destruct Hmore as [-> | [Hkey ->]]; auto. }
  destruct (head_object (st_world _ s) bucket key) as [[[]|e] w1];
    cbn [st_world st_calls]; [|apply Hfail; now left].
  destruct key as [| | | | k | |]; try (apply Hfail; now left).
  destruct (endswith k ".parquet") eqn:Hpq.
  - assert (Hkey : checkable_key (PStr k) = true) by (cbn; now rewrite Hpq).
    destruct (get_object w1 bucket (PStr k)) as [[data|e] w2]; cbn [bind st_calls].
    + destruct (read_parquet data) as [df|e]; cbn [bind].
      * exists [], (if negb (in_columns "room_category" df)
                    then [path_of bucket (PStr k)] else []),
               (if df_empty df then [path_of bucket (PStr k)] else []), 1,
               [HeadObject bucket (PStr k); GetObject bucket (PStr k)].
        unfold parquet_checks.
        destruct (df_empty df), (in_columns "room_category" df);
          cbn [negb fst snd file_access_failed room_category_failed empty_file_failed
                 files_checked count_checked empty_file_failure room_category_failure
                 st_calls List.length];
          rewrite ?app_nil_r, <- ?app_assoc; repeat split; try lia;
          right; split; [exact Hkey | reflexivity | exact Hkey | reflexivity
                         | exact Hkey | reflexivity | exact Hkey | reflexivity].
      * rewrite <- app_assoc; apply Hfail; right; now split.
    + rewrite <- app_assoc; apply Hfail; right; now split.
  - destruct (endswith k ".json") eqn:Hjs.
    + assert (Hkey : checkable_key (PStr k) = true)
        by (cbn; rewrite Hjs; apply orb_true_r).
      destruct (get_object w1 bucket (PStr k)) as [[data|e] w2]; cbn [bind st_calls].
      * destruct (json_loads_bytes data) as [content|e]; cbn [bind].
        -- exists [], (match content with
                       | PDict d => match dict_lookup d "room_category" with
                                    | None => [path_of bucket (PStr k)]
                                    | Some _ => []
                                    end
                       | _ => []
                       end), [], 1,
                  [HeadObject bucket (PStr k); GetObject bucket (PStr k)].
           unfold json_checks.
           assert (Hcalls : calls_of_reference (bucket, PStr k)
                              [HeadObject bucket (PStr k); GetObject bucket (PStr k)])
             by (right; now split).
           destruct content as [| | | | | |d];
             try destruct (dict_lookup d "room_category");
             cbn [fst snd file_access_failed room_category_failed empty_file_failed
                    files_checked count_checked room_category_failure
                    st_calls List.length];
             rewrite ?app_nil_r, <- ?app_assoc; repeat split; try lia; exact Hcalls.
        -- rewrite <- app_assoc; apply Hfail; right; now split.
      * rewrite <- app_assoc; apply Hfail; right; now split.
    + exists [], [], [], 0, [HeadObject bucket (PStr k)].
      cbn [fst snd st_calls List.length]; rewrite !app_nil_r, Nat.add_0_r.
      repeat split; try lia. now left.
Qed.

Lemma run_checks_cons (st : checks * store) (ref : reference) (paths : list reference) :
  run_checks st (ref :: paths) = run_checks (check_reference st ref) paths.
Proof.
  reflexivity.
Qed.

(** X11.  Over any list of references the three lists only grow at their
    end and the counter only grows; the accessibility failures added and
    the files counted together are at most the references processed (a
    reference is never both), and neither the schema failures added nor
    the emptiness failures added exceed the files counted. *)
Theorem run_checks_accounting (st : checks * store) (paths : list reference) :
  exists fa rc ef n,
    file_access_failed (fst (run_checks st paths))
      = file_access_failed (fst st) ++ fa /\
    room_category_failed (fst (run_checks st paths))
      = room_category_failed (fst st) ++ rc /\
    empty_file_failed (fst (run_checks st paths))
      = empty_file_failed (fst st) ++ ef /\
    files_checked (fst (run_checks st paths)) = files_checked (fst st) + n /\
    List.length fa + n <= List.length paths /\
    List.length rc <= n /\ List.length ef <= n.
Proof.
  revert st; induction paths as [|ref paths IH]; intros [acc s].
  - exists [], [], [], 0; cbn; rewrite !app_nil_r, Nat.add_0_r; repeat split; lia.
  - rewrite run_checks_cons.
    destruct (check_reference_effect acc s ref)
      as (fa1 & rc1 & ef1 & n1 & calls & Hfa1 & Hrc1 & Hef1 & Hn1 & _ & H1 & H2 & H3 & _).
    destruct (IH (check_reference (acc, s) ref))
      as (fa2 & rc2 & ef2 & n2 & Hfa2 & Hrc2 & Hef2 & Hn2 & H4 & H5 & H6).
    exists (fa1 ++ fa2), (rc1 ++ rc2), (ef1 ++ ef2), (n1 + n2).
    rewrite Hfa2, Hrc2, Hef2, Hn2, Hfa1, Hrc1, Hef1, Hn1, !length_app.
    cbn [fst List.length]; rewrite <- !app_assoc; repeat split; lia.
Qed.

(** X12.  The calls to the store follow the references one by one and in
    order: each reference is probed exactly once, and its content is
    fetched at most once, directly after its probe and only when its key
    ends in [.parquet] or [.json]. *)
Theorem store_calls_follow_references (st : checks * store) (paths : list reference) :
  exists segments,
    Forall2 calls_of_reference paths segments /\
    st_calls _ (snd (run_checks st paths)) = st_calls _ (snd st) ++ concat segments.
Proof.
  revert st; induction paths as [|ref paths IH]; intros [acc s].
  - exists []; split; [constructor | cbn; now rewrite app_nil_r].
  - rewrite run_checks_cons.
    destruct (check_reference_effect acc s ref)
      as (fa & rc & ef & n & calls & _ & _ & _ & _ & Hcalls & _ & _ & _ & Hshape).
    destruct (IH (check_reference (acc, s) ref)) as (segments & Hall & Hrest).
    exists (calls :: segments); split; [now constructor|].
    rewrite Hrest, Hcalls; cbn [snd concat]; now rewrite <- app_assoc.
Qed.

(** ** Whole runs *)

(** X13.  When the request of the entry is an object with neither a body
    nor a url, there is nothing to check: the report says that the files
    are accessible and that the two other checks failed for lack of
    accessible files, and the store is never called. *)
Theorem entry_without_references (w : world) (service_item : pyval) (request : dict)
    (Hrequest : getitem service_item "request" = Ok (PDict request))
    (Hbody : dict_lookup request "body" = None)
    (Hurl : dict_lookup request "url" = None) :
  check_item w service_item = mk_run _ (Ok tt) nothing_checked (mk_store _ w []).
Proof.
  unfold_item; unfold collect_paths, extend_from, raw_field.
  rewrite Hrequest; cbn [bind contains_str]; rewrite Hbody, Hurl; reflexivity.
Qed.

(** X14.  When the raw body of the entry found is JSON but not an object,
    the AttributeError of the extractor leaves [check_service]: nothing is
    printed, the store is not called, and the url of the entry is not
    looked at. *)
Theorem body_not_object_aborts (w : world) (json_path service_name : string)
    (data : pyval) (before after : list pyval) (service_item : pyval)
    (request body : dict) (text : string) (v : pyval)
    (Hload : load_collection json_path = Ok data)
    (Hitems : getitem data "item" = Ok (PList (before ++ service_item :: after)))
    (Hbefore : forallb (other_name service_name) before = true)
    (Hnamed : named service_name service_item = true)
    (Hrequest : getitem service_item "request" = Ok (PDict request))
    (Hbody : dict_lookup request "body" = Some (PDict body))
    (Hraw : dict_lookup body "raw" = Some (PStr text))
    (Hjson : Json.loads text = Some v)
    (Hnot : forall d, v <> PDict d) :
  check_service w json_path service_name
    = mk_run _ (Raise (no_attribute v "items")) [] (mk_store _ w []).
Proof.
  unfold_service; rewrite Hload, Hitems; cbn [bind iterate].
  rewrite (find_service_skip _ _ _ Hbefore), (find_service_first _ _ _ Hnamed).
  rewrite (named_truthy _ _ Hnamed); cbn [negb].
  unfold_item; unfold collect_paths, extend_from, raw_field.
  rewrite Hrequest; cbn [bind contains_str getitem].
  rewrite Hbody; cbn [bind contains_str getitem].
  rewrite Hraw; cbn [bind]; unfold extract_paths_from_raw; rewrite Hjson.
  destruct v as [| | | | | |d]; try reflexivity. now destruct (Hnot d).
Qed.


(** X16.  A single [.parquet] reference that is accessible and decodes to
    a table with at least one row and a column room_category gives the
    report of three Passed lines, with one probe and one fetch. *)
Theorem single_good_parquet_passes (w w1 w2 : world) (service_item bucket : pyval)
    (k data : string) (df : dataframe)
    (Hpaths : collect_paths service_item = Ok [(bucket, PStr k)])
    (Hpq : endswith k ".parquet" = true)
    (Hprobe : head_object w bucket (PStr k) = (Ok tt, w1))
    (Hget : get_object w1 bucket (PStr k) = (Ok data, w2))
    (Hdec : read_parquet data = Ok df)
    (Hrows : df_rows df <> 0)
    (Hcolumn : In "room_category" (df_columns df)) :
  check_item w service_item
    = mk_run _ (Ok tt) all_passed
        (mk_store _ w2 [HeadObject bucket (PStr k); GetObject bucket (PStr k)]).
Proof.
  unfold_item; rewrite Hpaths, run_checks_one.
  rewrite (parquet_content_step no_checks (mk_store _ w []) bucket k w1 w2 data df
             Hprobe Hpq Hget Hdec).
  unfold parquet_checks.
  assert (Hne : df_empty df = false).
  { destruct (df_empty df) eqn:He; [|reflexivity].
    apply df_empty_iff in He as [He | He]; [congruence|].
    rewrite He in Hcolumn; destruct Hcolumn. }
  apply in_columns_In in Hcolumn; rewrite Hne, Hcolumn; reflexivity.
Qed.

Lemma all_probes_fail_run (paths : list reference) (acc : checks) (s : store) :
  all_probes_fail paths ->
  exists w',
    run_checks (acc, s) paths
      = (mk_checks
           (file_access_failed acc
              ++ map (fun ref => (path_of (fst ref) (snd ref), "unable to access the file"))
                   paths)
           (room_category_failed acc) (empty_file_failed acc) (files_checked acc),
         mk_store _ w'
           (st_calls _ s ++ map (fun ref => HeadObject (fst ref) (snd ref)) paths)).
Proof.
  revert acc s; induction paths as [|[bucket key] paths IH]; intros acc s Hall.
  - exists (st_world _ s); cbn [map]; rewrite !app_nil_r.
    destruct acc, s; reflexivity.
  - rewrite run_checks_cons.
    destruct (Hall bucket key (st_world _ s) (or_introl eq_refl)) as [e He].
    destruct (head_object (st_world _ s) bucket key) as [r w1] eqn:Hprobe.
    cbn [fst] in He; subst r.
    rewrite (probe_failure_step _ _ _ _ _ _ acc s bucket key e w1 Hprobe).
    destruct (IH (access_failure acc (path_of bucket key) "unable to access the file")
                 (mk_store _ w1 (st_calls _ s ++ [HeadObject bucket key])))
      as [w' Hrun].
    { intros b k w0 Hin; apply Hall; now right. }
    exists w'; rewrite Hrun.
    cbn [access_failure file_access_failed room_category_failed empty_file_failed
           files_checked st_calls map fst snd].
    now rewrite <- !app_assoc.
Qed.


End LoopProperties.

(** ** The further properties on the in-memory instance *)

Lemma parquet_reference_checked_witness :
  exists acc2 s2,
    Demo.run_paths (Demo.start [("b1", "a.parquet", "PAR1")])
        [(PStr "b1", PStr "a.parquet")] = (acc2, s2) /\
    files_checked acc2 = 1 /\
    empty_file_failed acc2 = ["s3://b1/a.parquet"] /\
    room_category_failed acc2 = [].
Proof.
  destruct (parquet_reference_checked Demo.world Demo.head_object Demo.get_object
              Demo.read_parquet Demo.py_repr Demo.json_loads_bytes
              (Demo.start [("b1", "a.parquet", "PAR1")]) []
              (PStr "b1") "a.parquet"
              no_checks (mk_store _ [("b1", "a.parquet", "PAR1")] [])
              [("b1", "a.parquet", "PAR1")] [("b1", "a.parquet", "PAR1")]
              "PAR1" (mk_df 0 ["room_category"])
              eq_refl eq_refl eq_refl eq_refl eq_refl)
    as (acc2 & s2 & Hrun & Hcount & _ & Hempty & _ & _ & Hcolumn).
  exists acc2, s2; repeat split; [exact Hrun | exact Hcount | |].
  - exact (Hempty (or_introl eq_refl)).
  - exact (Hcolumn (or_introl eq_refl)).
Defined.

Lemma other_extension_only_probed_witness :
  Demo.run_paths (Demo.start [("b1", "a.csv", "x,y")]) [(PStr "b1", PStr "a.csv")]
    = (no_checks,
       mk_store _ [("b1", "a.csv", "x,y")] [HeadObject (PStr "b1") (PStr "a.csv")]).
Proof.
  exact (proj1 (other_extension_only_probed Demo.world Demo.head_object Demo.get_object
                  Demo.read_parquet Demo.py_repr Demo.json_loads_bytes
                  (Demo.start [("b1", "a.csv", "x,y")]) [] (PStr "b1") "a.csv"
                  no_checks (mk_store _ [("b1", "a.csv", "x,y")] [])
                  [("b1", "a.csv", "x,y")] eq_refl eq_refl eq_refl eq_refl)).
Defined.

Lemma entry_without_references_witness :
  Demo.check_entry [("b1", "a.json", "{}")] Demo.other_entry
    = mk_run _ (Ok tt) nothing_checked (mk_store _ [("b1", "a.json", "{}")] []).
Proof.
  exact (entry_without_references Demo.world Demo.head_object Demo.get_object
           Demo.read_parquet Demo.py_repr Demo.json_loads_bytes
           [("b1", "a.json", "{}")] Demo.other_entry [] eq_refl eq_refl eq_refl).
Defined.

Lemma body_not_object_aborts_witness :
  Cases.check [("b1", "a.json", "{}")] "list_body.json" "svc"
    = mk_run _ (Raise (mk_exn AttributeError "'list' object has no attribute 'items'"))
        [] (mk_store _ [("b1", "a.json", "{}")] []).
Proof.
  exact (body_not_object_aborts Demo.world Cases.read_text Demo.head_object
           Demo.get_object Demo.read_parquet Demo.py_repr Demo.json_loads_bytes
           Demo.json_error_text [("b1", "a.json", "{}")] "list_body.json" "svc"
           (PDict [("item", PList [Cases.list_body_entry])])
           [] [] Cases.list_body_entry
           [("body", PDict [("raw", PStr "[1, 2]")]);
            ("url",
             PDict [("raw", PStr "http://x/y?input_bucket=b1&input_file=a.json")])]
           [("raw", PStr "[1, 2]")] "[1, 2]" (PList [PInt 1; PInt 2])
           eq_refl eq_refl eq_refl eq_refl eq_refl eq_refl eq_refl eq_refl
           (fun d H => eq_ind (PList [PInt 1; PInt 2])
                         (fun v => match v with PList _ => True | _ => False end)
                         I (PDict d) H)).
Defined.


Lemma single_good_parquet_passes_witness :
  Demo.check_entry [("b1", "a.parquet", "PAR1xyz")] Cases.parquet_entry
    = mk_run _ (Ok tt) all_passed
        (mk_store _ [("b1", "a.parquet", "PAR1xyz")]
           [HeadObject (PStr "b1") (PStr "a.parquet");
            GetObject (PStr "b1") (PStr "a.parquet")]).
Proof.
  exact (single_good_parquet_passes Demo.world Demo.head_object Demo.get_object
           Demo.read_parquet Demo.py_repr Demo.json_loads_bytes
           [("b1", "a.parquet", "PAR1xyz")] [("b1", "a.parquet", "PAR1xyz")]
           [("b1", "a.parquet", "PAR1xyz")] Cases.parquet_entry (PStr "b1")
           "a.parquet" "PAR1xyz" (mk_df 3 ["room_category"])
           eq_refl eq_refl eq_refl eq_refl eq_refl
           (fun H => O_S 2 (eq_sym H)) (or_introl eq_refl)).
Defined.

